(** * caisterstorm: the simulation core of the game script (the second
    document of [src/narrative/StoryManager.js]), [HorrorEvents.js] and
    [Entity.js], embedded as explicit state passing.

    Numbers: JavaScript doubles are idealised as rationals [Q]; the bounds
    of a [Box3] are rationals extended with the two infinities, because
    [Box3.makeEmpty] stores [+Infinity] and [-Infinity].  Times handed to
    [setTimeout] and read from [performance.now] are integers (ms). *)

From Stdlib Require Import QArith ZArith Bool String List Lia.
From stdpp Require Import base list gmap strings pretty.

Local Open Scope Q_scope.

(* ===================================================================== *)
(** ** The parts of three.js the program relies on                        *)
(* ===================================================================== *)

Module Three.

(** A bound of a box: a finite number or an infinity. *)
Inductive bound : Type :=
| NegInf
| Fin (q : Q)
| PosInf.

(** JavaScript [a <= b] on non-NaN doubles. *)
Definition leb (a b : bound) : bool :=
  match a, b with
  | NegInf, _ => true
  | _, PosInf => true
  | Fin x, Fin y => Qle_bool x y
  | _, _ => false
  end.

(** JavaScript [a >= b]. *)
Definition geb (a b : bound) : bool := leb b a.

Record Vector3 : Type := V3 { vx : Q; vy : Q; vz : Q }.

Definition setX (p : Vector3) (x : Q) : Vector3 := V3 x (vy p) (vz p).
Definition setY (p : Vector3) (y : Q) : Vector3 := V3 (vx p) y (vz p).
Definition setZ (p : Vector3) (z : Q) : Vector3 := V3 (vx p) (vy p) z.

Record Bound3 : Type := B3 { bx : bound; by_ : bound; bz : bound }.

Record Box3 : Type := Box { bmin : Bound3; bmax : Bound3 }.

(** [Box3.setFromCenterAndSize(center, size)]:
    [halfSize = size * 0.5; min = center - halfSize; max = center + halfSize]. *)
Definition setFromCenterAndSize (center size : Vector3) : Box3 :=
  let hx := vx size * 0.5 in
  let hy := vy size * 0.5 in
  let hz := vz size * 0.5 in
  Box (B3 (Fin (vx center - hx)) (Fin (vy center - hy)) (Fin (vz center - hz)))
      (B3 (Fin (vx center + hx)) (Fin (vy center + hy)) (Fin (vz center + hz))).

(** [Box3.makeEmpty()]: [min = +Infinity], [max = -Infinity] on every axis. *)
Definition makeEmpty : Box3 :=
  Box (B3 PosInf PosInf PosInf) (B3 NegInf NegInf NegInf).

(** [this.intersectsBox(box)]:
    [box.max.x >= this.min.x && box.min.x <= this.max.x && ...] on the
    three axes. *)
Definition intersectsBox (this box : Box3) : bool :=
  geb (bx (bmax box)) (bx (bmin this)) && leb (bx (bmin box)) (bx (bmax this)) &&
  geb (by_ (bmax box)) (by_ (bmin this)) && leb (by_ (bmin box)) (by_ (bmax this)) &&
  geb (bz (bmax box)) (bz (bmin this)) && leb (bz (bmin box)) (bz (bmax this)).

(** [this.containsPoint(point)]:
    [point.x >= this.min.x && point.x <= this.max.x && ...]. *)
Definition containsPoint (this : Box3) (p : Vector3) : bool :=
  geb (Fin (vx p)) (bx (bmin this)) && leb (Fin (vx p)) (bx (bmax this)) &&
  geb (Fin (vy p)) (by_ (bmin this)) && leb (Fin (vy p)) (by_ (bmax this)) &&
  geb (Fin (vz p)) (bz (bmin this)) && leb (Fin (vz p)) (bz (bmax this)).

(** [MathUtils.clamp(value, min, max) = Math.max(min, Math.min(max, value))]. *)
Definition Qminb (a b : Q) : Q := if Qle_bool a b then a else b.
Definition Qmaxb (a b : Q) : Q := if Qle_bool a b then b else a.
Definition clamp (value lo hi : Q) : Q := Qmaxb lo (Qminb hi value).

(** Strict comparison [a < b] and [a > b] on finite numbers. *)
Definition Qltb (a b : Q) : bool := negb (Qle_bool b a).
Definition Qgtb (a b : Q) : bool := Qltb b a.

(** [a.distanceTo(b) < r] is decided on the squares, which avoids the
    square root: for [r >= 0] the two comparisons agree on the reals. *)
Definition distanceToSquared (a b : Vector3) : Q :=
  (vx a - vx b) * (vx a - vx b) + (vy a - vy b) * (vy a - vy b)
  + (vz a - vz b) * (vz a - vz b).

Definition distanceLt (a b : Vector3) (r : Q) : bool :=
  Qltb (distanceToSquared a b) (r * r).

End Three.
Export Three.

(* ===================================================================== *)
(** ** Collision                                                           *)
(* ===================================================================== *)

(** [const playerSize = new THREE.Vector3(0.5, 1.7, 0.5)]. *)
Definition playerSize : Vector3 := V3 0.5 1.7 0.5.

(** [playerBox.setFromCenterAndSize(newPos, playerSize)]. *)
Definition playerBox (newPos : Vector3) : Box3 :=
  setFromCenterAndSize newPos playerSize.

(** [checkCollision(newPos)]: true as soon as one wall box intersects. *)
Fixpoint checkCollision (wallBoxes : list Box3) (newPos : Vector3) : bool :=
  match wallBoxes with
  | [] => false
  | box :: rest =>
      if intersectsBox (playerBox newPos) box then true
      else checkCollision rest newPos
  end.

(* ===================================================================== *)
(** ** Data model                                                          *)
(* ===================================================================== *)

Local Open Scope string_scope.

(** The [userData.type] tag of an object reached by the interaction ray.
    [T_other] stands for an object without a tag the dispatcher knows
    (an untyped parent group, or the rooftop's ['chapter_end_trigger']). *)
Inductive ObjType : Type :=
| T_note | T_terminal | T_vhs | T_door | T_final_terminal | T_keycard
| T_valve | T_hatch | T_keycard_10 | T_escape_door | T_locked_door | T_other.

Global Instance ObjType_eq_dec : EqDecision ObjType.
Proof. solve_decision. Defined.

(** An interactable object: [obj.visible] and the fields of its [userData]
    bag that the script reads or writes.  The indicator material and
    security light are kept as their colour; meshes that only move on
    screen are left to the renderer.  A collider index that the level
    builder did not store is [None] (JavaScript [undefined]). *)
Record Interactable : Type := MkInteractable {
  type_ : ObjType;
  interactable : bool;
  visible : bool;
  content : string;
  opened : bool;
  turned : bool;
  indicColor : Z;
  indicEmissive : Z;
  secLightColor : Z;
  glowVisible : bool;
  doorColliderLeft : option nat;
  doorColliderRight : option nat;
  doorColliderIdx : option nat
}.

Definition set_interactable (v : bool) (o : Interactable) : Interactable :=
  MkInteractable (type_ o) v (visible o) (content o) (opened o) (turned o)
    (indicColor o) (indicEmissive o) (secLightColor o) (glowVisible o)
    (doorColliderLeft o) (doorColliderRight o) (doorColliderIdx o).
Definition set_visible (v : bool) (o : Interactable) : Interactable :=
  MkInteractable (type_ o) (interactable o) v (content o) (opened o)
    (turned o) (indicColor o) (indicEmissive o) (secLightColor o)
    (glowVisible o) (doorColliderLeft o) (doorColliderRight o)
    (doorColliderIdx o).
Definition set_opened (v : bool) (o : Interactable) : Interactable :=
  MkInteractable (type_ o) (interactable o) (visible o) (content o) v
    (turned o) (indicColor o) (indicEmissive o) (secLightColor o)
    (glowVisible o) (doorColliderLeft o) (doorColliderRight o)
    (doorColliderIdx o).
Definition set_turned (v : bool) (o : Interactable) : Interactable :=
  MkInteractable (type_ o) (interactable o) (visible o) (content o) (opened o)
    v (indicColor o) (indicEmissive o) (secLightColor o) (glowVisible o)
    (doorColliderLeft o) (doorColliderRight o) (doorColliderIdx o).
Definition set_indicColor (v : Z) (o : Interactable) : Interactable :=
  MkInteractable (type_ o) (interactable o) (visible o) (content o) (opened o)
    (turned o) v (indicEmissive o) (secLightColor o) (glowVisible o)
    (doorColliderLeft o) (doorColliderRight o) (doorColliderIdx o).
Definition set_indicEmissive (v : Z) (o : Interactable) : Interactable :=
  MkInteractable (type_ o) (interactable o) (visible o) (content o) (opened o)
    (turned o) (indicColor o) v (secLightColor o) (glowVisible o)
    (doorColliderLeft o) (doorColliderRight o) (doorColliderIdx o).
Definition set_secLightColor (v : Z) (o : Interactable) : Interactable :=
  MkInteractable (type_ o) (interactable o) (visible o) (content o) (opened o)
    (turned o) (indicColor o) (indicEmissive o) v (glowVisible o)
    (doorColliderLeft o) (doorColliderRight o) (doorColliderIdx o).
Definition set_glowVisible (v : bool) (o : Interactable) : Interactable :=
  MkInteractable (type_ o) (interactable o) (visible o) (content o) (opened o)
    (turned o) (indicColor o) (indicEmissive o) (secLightColor o) v
    (doorColliderLeft o) (doorColliderRight o) (doorColliderIdx o).

(** [state.tunnelData]: what the valve puzzle reads back from the tunnel
    builder. *)
Record TunnelData : Type := MkTunnelData {
  exitDoorColliderIdx : nat;
  exitIndicColor : Z;
  exitIndicEmissive : Z;
  exitLightIntensity : Q;
  exitLightDistance : Q
}.

(** [state.rooftopData.triggerZone]: its world bounding box (cached by the
    loop in [userData._cachedBox]) and [userData.triggered]. *)
Record RooftopData : Type := MkRooftopData {
  triggerZoneBox : Box3;
  triggered : bool
}.

(** Fire-and-forget cues of the audio manager and pushes to the HUD, in
    the order they were issued (most recent first). *)
Inductive Cue : Type :=
| playClick | playTerminal | playStatic | playScare | playWhisper
| playDoorSlam | playBassBoom | playAlarm | playHeartbeat.

(** [RandomTone lo width dur vol] is [_playTone(lo + Math.random() * width,
    dur, vol)]; the other constructors name the call they stand for. *)
Inductive Effect : Type :=
| Hint (text : string)
| Audio (c : Cue)
| Tone (freq dur vol : Q)
| RandomTone (lo width dur vol : Q)
| StartAmbience
| StopAll
| NoteShown (text : string)
| ScreenShake (on : bool)
| Blackout (on : bool)
| ScreenFlash (className : string).

(** Deferred callbacks: the closures handed to [setTimeout] and
    [setInterval], and the last frame of each [requestAnimationFrame]
    animation (the frame on which [t] reaches 1).  A closure that captured
    [obj.userData] carries the index of that object. *)
Inductive Action : Type :=
| ValveExitOpen
| ExitAnimDone
| EscapeGranted (i : nat)
| EscapeTeleport
| SecDoorStart (i : nat)
| SecDoorAnimDone (i : nat)
| DoorAnimDone (i : nat)
| CinematicStep2
| FlickerTick (flickerCount : nat)
| CinematicStep3
| ShakeEnd
| CinematicStep4
| CinematicStep5
| CinematicStep6
| CinematicStep7
| DistantFootstep.

Global Instance Action_eq_dec : EqDecision Action.
Proof. solve_decision. Defined.

(** One entry of [HorrorEvents.events]. *)
Inductive ScareType : Type :=
| lights_out | shadow_figure | door_slam | whisper | heartbeat | tv_scare
| final_scare.

Record ZoneEvent : Type := MkZoneEvent {
  ev_id : string;
  ev_zone : Vector3;
  ev_radius : Q;
  ev_type : ScareType
}.

(** The mutable fields of a [HorrorEvents] instance. *)
Record HorrorEvents : Type := MkHorrorEvents {
  h_triggered : gset string;
  flickerOverride : Q;
  scareTimer : Q;
  nextScareTime : Q;
  shadowVisible : bool;
  shadowOpacity : Q
}.

(** [entityState] of [createEntity], without the steering vectors. *)
Record EntityState : Type := MkEntityState {
  e_active : bool;
  activateTime : Q;
  visibleTimer : Q;
  appearsFor : Q;
  hideFor : Q;
  isShowing : bool
}.

(** The whole session: the [state] object, the module-level bindings
    ([camera.position], [wallBoxes], [interactables], [horrorEvents],
    [entitySystem]), the browser's clock and pending callbacks, and the
    effects issued so far.  [chapter] and [hatchTrigger] have no setter:
    the script never assigns them after start-up.  [entitySystem] is only
    written by the entity's own [update]. *)
Record State : Type := MkState {
  playing : bool;
  paused : bool;
  noteOpen : bool;
  flashlightOn : bool;
  battery : Q;
  moveForward : bool;
  moveBackward : bool;
  moveLeft : bool;
  moveRight : bool;
  sprinting : bool;
  collectiblesFound : nat;
  chapter : nat;
  valvesTurned : nat;
  hasKeycard : bool;
  hasKeycard10 : bool;
  finalTerminalRead : bool;
  pendingCinematic : bool;
  hatchTrigger : option nat;
  tunnelData : TunnelData;
  rooftopData : option RooftopData;
  camera : Vector3;
  wallBoxes : list Box3;
  interactables : list Interactable;
  horrorEvents : option HorrorEvents;
  entitySystem : option EntityState;
  nowMs : Z;
  timers : list (Z * Action);
  log : list Effect
}.

Definition set_playing (v : bool) (s : State) : State :=
  MkState v (paused s) (noteOpen s) (flashlightOn s) (battery s)
    (moveForward s) (moveBackward s) (moveLeft s) (moveRight s) (sprinting s)
    (collectiblesFound s) (chapter s) (valvesTurned s) (hasKeycard s)
    (hasKeycard10 s) (finalTerminalRead s) (pendingCinematic s)
    (hatchTrigger s) (tunnelData s) (rooftopData s) (camera s) (wallBoxes s)
    (interactables s) (horrorEvents s) (entitySystem s) (nowMs s) (timers s)
    (log s).
Definition set_paused (v : bool) (s : State) : State :=
  MkState (playing s) v (noteOpen s) (flashlightOn s) (battery s)
    (moveForward s) (moveBackward s) (moveLeft s) (moveRight s) (sprinting s)
    (collectiblesFound s) (chapter s) (valvesTurned s) (hasKeycard s)
    (hasKeycard10 s) (finalTerminalRead s) (pendingCinematic s)
    (hatchTrigger s) (tunnelData s) (rooftopData s) (camera s) (wallBoxes s)
    (interactables s) (horrorEvents s) (entitySystem s) (nowMs s) (timers s)
    (log s).
Definition set_noteOpen (v : bool) (s : State) : State :=
  MkState (playing s) (paused s) v (flashlightOn s) (battery s)
    (moveForward s) (moveBackward s) (moveLeft s) (moveRight s) (sprinting s)
    (collectiblesFound s) (chapter s) (valvesTurned s) (hasKeycard s)
    (hasKeycard10 s) (finalTerminalRead s) (pendingCinematic s)
    (hatchTrigger s) (tunnelData s) (rooftopData s) (camera s) (wallBoxes s)
    (interactables s) (horrorEvents s) (entitySystem s) (nowMs s) (timers s)
    (log s).
Definition set_flashlightOn (v : bool) (s : State) : State :=
  MkState (playing s) (paused s) (noteOpen s) v (battery s) (moveForward s)
    (moveBackward s) (moveLeft s) (moveRight s) (sprinting s)
    (collectiblesFound s) (chapter s) (valvesTurned s) (hasKeycard s)
    (hasKeycard10 s) (finalTerminalRead s) (pendingCinematic s)
    (hatchTrigger s) (tunnelData s) (rooftopData s) (camera s) (wallBoxes s)
    (interactables s) (horrorEvents s) (entitySystem s) (nowMs s) (timers s)
    (log s).
Definition set_battery (v : Q) (s : State) : State :=
  MkState (playing s) (paused s) (noteOpen s) (flashlightOn s) v
    (moveForward s) (moveBackward s) (moveLeft s) (moveRight s) (sprinting s)
    (collectiblesFound s) (chapter s) (valvesTurned s) (hasKeycard s)
    (hasKeycard10 s) (finalTerminalRead s) (pendingCinematic s)
    (hatchTrigger s) (tunnelData s) (rooftopData s) (camera s) (wallBoxes s)
    (interactables s) (horrorEvents s) (entitySystem s) (nowMs s) (timers s)
    (log s).
Definition set_moveForward (v : bool) (s : State) : State :=
  MkState (playing s) (paused s) (noteOpen s) (flashlightOn s) (battery s) v
    (moveBackward s) (moveLeft s) (moveRight s) (sprinting s)
    (collectiblesFound s) (chapter s) (valvesTurned s) (hasKeycard s)
    (hasKeycard10 s) (finalTerminalRead s) (pendingCinematic s)
    (hatchTrigger s) (tunnelData s) (rooftopData s) (camera s) (wallBoxes s)
    (interactables s) (horrorEvents s) (entitySystem s) (nowMs s) (timers s)
    (log s).
Definition set_moveBackward (v : bool) (s : State) : State :=
  MkState (playing s) (paused s) (noteOpen s) (flashlightOn s) (battery s)
    (moveForward s) v (moveLeft s) (moveRight s) (sprinting s)
    (collectiblesFound s) (chapter s) (valvesTurned s) (hasKeycard s)
    (hasKeycard10 s) (finalTerminalRead s) (pendingCinematic s)
    (hatchTrigger s) (tunnelData s) (rooftopData s) (camera s) (wallBoxes s)
    (interactables s) (horrorEvents s) (entitySystem s) (nowMs s) (timers s)
    (log s).
Definition set_moveLeft (v : bool) (s : State) : State :=
  MkState (playing s) (paused s) (noteOpen s) (flashlightOn s) (battery s)
    (moveForward s) (moveBackward s) v (moveRight s) (sprinting s)
    (collectiblesFound s) (chapter s) (valvesTurned s) (hasKeycard s)
    (hasKeycard10 s) (finalTerminalRead s) (pendingCinematic s)
    (hatchTrigger s) (tunnelData s) (rooftopData s) (camera s) (wallBoxes s)
    (interactables s) (horrorEvents s) (entitySystem s) (nowMs s) (timers s)
    (log s).
Definition set_moveRight (v : bool) (s : State) : State :=
  MkState (playing s) (paused s) (noteOpen s) (flashlightOn s) (battery s)
    (moveForward s) (moveBackward s) (moveLeft s) v (sprinting s)
    (collectiblesFound s) (chapter s) (valvesTurned s) (hasKeycard s)
    (hasKeycard10 s) (finalTerminalRead s) (pendingCinematic s)
    (hatchTrigger s) (tunnelData s) (rooftopData s) (camera s) (wallBoxes s)
    (interactables s) (horrorEvents s) (entitySystem s) (nowMs s) (timers s)
    (log s).
Definition set_sprinting (v : bool) (s : State) : State :=
  MkState (playing s) (paused s) (noteOpen s) (flashlightOn s) (battery s)
    (moveForward s) (moveBackward s) (moveLeft s) (moveRight s) v
    (collectiblesFound s) (chapter s) (valvesTurned s) (hasKeycard s)
    (hasKeycard10 s) (finalTerminalRead s) (pendingCinematic s)
    (hatchTrigger s) (tunnelData s) (rooftopData s) (camera s) (wallBoxes s)
    (interactables s) (horrorEvents s) (entitySystem s) (nowMs s) (timers s)
    (log s).
Definition set_collectiblesFound (v : nat) (s : State) : State :=
  MkState (playing s) (paused s) (noteOpen s) (flashlightOn s) (battery s)
    (moveForward s) (moveBackward s) (moveLeft s) (moveRight s) (sprinting s)
    v (chapter s) (valvesTurned s) (hasKeycard s) (hasKeycard10 s)
    (finalTerminalRead s) (pendingCinematic s) (hatchTrigger s) (tunnelData s)
    (rooftopData s) (camera s) (wallBoxes s) (interactables s)
    (horrorEvents s) (entitySystem s) (nowMs s) (timers s) (log s).
Definition set_valvesTurned (v : nat) (s : State) : State :=
  MkState (playing s) (paused s) (noteOpen s) (flashlightOn s) (battery s)
    (moveForward s) (moveBackward s) (moveLeft s) (moveRight s) (sprinting s)
    (collectiblesFound s) (chapter s) v (hasKeycard s) (hasKeycard10 s)
    (finalTerminalRead s) (pendingCinematic s) (hatchTrigger s) (tunnelData s)
    (rooftopData s) (camera s) (wallBoxes s) (interactables s)
    (horrorEvents s) (entitySystem s) (nowMs s) (timers s) (log s).
Definition set_hasKeycard (v : bool) (s : State) : State :=
  MkState (playing s) (paused s) (noteOpen s) (flashlightOn s) (battery s)
    (moveForward s) (moveBackward s) (moveLeft s) (moveRight s) (sprinting s)
    (collectiblesFound s) (chapter s) (valvesTurned s) v (hasKeycard10 s)
    (finalTerminalRead s) (pendingCinematic s) (hatchTrigger s) (tunnelData s)
    (rooftopData s) (camera s) (wallBoxes s) (interactables s)
    (horrorEvents s) (entitySystem s) (nowMs s) (timers s) (log s).
Definition set_hasKeycard10 (v : bool) (s : State) : State :=
  MkState (playing s) (paused s) (noteOpen s) (flashlightOn s) (battery s)
    (moveForward s) (moveBackward s) (moveLeft s) (moveRight s) (sprinting s)
    (collectiblesFound s) (chapter s) (valvesTurned s) (hasKeycard s) v
    (finalTerminalRead s) (pendingCinematic s) (hatchTrigger s) (tunnelData s)
    (rooftopData s) (camera s) (wallBoxes s) (interactables s)
    (horrorEvents s) (entitySystem s) (nowMs s) (timers s) (log s).
Definition set_finalTerminalRead (v : bool) (s : State) : State :=
  MkState (playing s) (paused s) (noteOpen s) (flashlightOn s) (battery s)
    (moveForward s) (moveBackward s) (moveLeft s) (moveRight s) (sprinting s)
    (collectiblesFound s) (chapter s) (valvesTurned s) (hasKeycard s)
    (hasKeycard10 s) v (pendingCinematic s) (hatchTrigger s) (tunnelData s)
    (rooftopData s) (camera s) (wallBoxes s) (interactables s)
    (horrorEvents s) (entitySystem s) (nowMs s) (timers s) (log s).
Definition set_pendingCinematic (v : bool) (s : State) : State :=
  MkState (playing s) (paused s) (noteOpen s) (flashlightOn s) (battery s)
    (moveForward s) (moveBackward s) (moveLeft s) (moveRight s) (sprinting s)
    (collectiblesFound s) (chapter s) (valvesTurned s) (hasKeycard s)
    (hasKeycard10 s) (finalTerminalRead s) v (hatchTrigger s) (tunnelData s)
    (rooftopData s) (camera s) (wallBoxes s) (interactables s)
    (horrorEvents s) (entitySystem s) (nowMs s) (timers s) (log s).
Definition set_tunnelData (v : TunnelData) (s : State) : State :=
  MkState (playing s) (paused s) (noteOpen s) (flashlightOn s) (battery s)
    (moveForward s) (moveBackward s) (moveLeft s) (moveRight s) (sprinting s)
    (collectiblesFound s) (chapter s) (valvesTurned s) (hasKeycard s)
    (hasKeycard10 s) (finalTerminalRead s) (pendingCinematic s)
    (hatchTrigger s) v (rooftopData s) (camera s) (wallBoxes s)
    (interactables s) (horrorEvents s) (entitySystem s) (nowMs s) (timers s)
    (log s).
Definition set_rooftopData (v : option RooftopData) (s : State) : State :=
  MkState (playing s) (paused s) (noteOpen s) (flashlightOn s) (battery s)
    (moveForward s) (moveBackward s) (moveLeft s) (moveRight s) (sprinting s)
    (collectiblesFound s) (chapter s) (valvesTurned s) (hasKeycard s)
    (hasKeycard10 s) (finalTerminalRead s) (pendingCinematic s)
    (hatchTrigger s) (tunnelData s) v (camera s) (wallBoxes s)
    (interactables s) (horrorEvents s) (entitySystem s) (nowMs s) (timers s)
    (log s).
Definition set_camera (v : Vector3) (s : State) : State :=
  MkState (playing s) (paused s) (noteOpen s) (flashlightOn s) (battery s)
    (moveForward s) (moveBackward s) (moveLeft s) (moveRight s) (sprinting s)
    (collectiblesFound s) (chapter s) (valvesTurned s) (hasKeycard s)
    (hasKeycard10 s) (finalTerminalRead s) (pendingCinematic s)
    (hatchTrigger s) (tunnelData s) (rooftopData s) v (wallBoxes s)
    (interactables s) (horrorEvents s) (entitySystem s) (nowMs s) (timers s)
    (log s).
Definition set_wallBoxes (v : list Box3) (s : State) : State :=
  MkState (playing s) (paused s) (noteOpen s) (flashlightOn s) (battery s)
    (moveForward s) (moveBackward s) (moveLeft s) (moveRight s) (sprinting s)
    (collectiblesFound s) (chapter s) (valvesTurned s) (hasKeycard s)
    (hasKeycard10 s) (finalTerminalRead s) (pendingCinematic s)
    (hatchTrigger s) (tunnelData s) (rooftopData s) (camera s) v
    (interactables s) (horrorEvents s) (entitySystem s) (nowMs s) (timers s)
    (log s).
Definition set_interactables (v : list Interactable) (s : State) : State :=
  MkState (playing s) (paused s) (noteOpen s) (flashlightOn s) (battery s)
    (moveForward s) (moveBackward s) (moveLeft s) (moveRight s) (sprinting s)
    (collectiblesFound s) (chapter s) (valvesTurned s) (hasKeycard s)
    (hasKeycard10 s) (finalTerminalRead s) (pendingCinematic s)
    (hatchTrigger s) (tunnelData s) (rooftopData s) (camera s) (wallBoxes s) v
    (horrorEvents s) (entitySystem s) (nowMs s) (timers s) (log s).
Definition set_horrorEvents (v : option HorrorEvents) (s : State) : State :=
  MkState (playing s) (paused s) (noteOpen s) (flashlightOn s) (battery s)
    (moveForward s) (moveBackward s) (moveLeft s) (moveRight s) (sprinting s)
    (collectiblesFound s) (chapter s) (valvesTurned s) (hasKeycard s)
    (hasKeycard10 s) (finalTerminalRead s) (pendingCinematic s)
    (hatchTrigger s) (tunnelData s) (rooftopData s) (camera s) (wallBoxes s)
    (interactables s) v (entitySystem s) (nowMs s) (timers s) (log s).
Definition set_entitySystem (v : option EntityState) (s : State) : State :=
  MkState (playing s) (paused s) (noteOpen s) (flashlightOn s) (battery s)
    (moveForward s) (moveBackward s) (moveLeft s) (moveRight s) (sprinting s)
    (collectiblesFound s) (chapter s) (valvesTurned s) (hasKeycard s)
    (hasKeycard10 s) (finalTerminalRead s) (pendingCinematic s)
    (hatchTrigger s) (tunnelData s) (rooftopData s) (camera s) (wallBoxes s)
    (interactables s) (horrorEvents s) v (nowMs s) (timers s) (log s).
Definition set_nowMs (v : Z) (s : State) : State :=
  MkState (playing s) (paused s) (noteOpen s) (flashlightOn s) (battery s)
    (moveForward s) (moveBackward s) (moveLeft s) (moveRight s) (sprinting s)
    (collectiblesFound s) (chapter s) (valvesTurned s) (hasKeycard s)
    (hasKeycard10 s) (finalTerminalRead s) (pendingCinematic s)
    (hatchTrigger s) (tunnelData s) (rooftopData s) (camera s) (wallBoxes s)
    (interactables s) (horrorEvents s) (entitySystem s) v (timers s) (log s).
Definition set_timers (v : list (Z * Action)) (s : State) : State :=
  MkState (playing s) (paused s) (noteOpen s) (flashlightOn s) (battery s)
    (moveForward s) (moveBackward s) (moveLeft s) (moveRight s) (sprinting s)
    (collectiblesFound s) (chapter s) (valvesTurned s) (hasKeycard s)
    (hasKeycard10 s) (finalTerminalRead s) (pendingCinematic s)
    (hatchTrigger s) (tunnelData s) (rooftopData s) (camera s) (wallBoxes s)
    (interactables s) (horrorEvents s) (entitySystem s) (nowMs s) v (log s).
Definition set_log (v : list Effect) (s : State) : State :=
  MkState (playing s) (paused s) (noteOpen s) (flashlightOn s) (battery s)
    (moveForward s) (moveBackward s) (moveLeft s) (moveRight s) (sprinting s)
    (collectiblesFound s) (chapter s) (valvesTurned s) (hasKeycard s)
    (hasKeycard10 s) (finalTerminalRead s) (pendingCinematic s)
    (hatchTrigger s) (tunnelData s) (rooftopData s) (camera s) (wallBoxes s)
    (interactables s) (horrorEvents s) (entitySystem s) (nowMs s) (timers s) v.

Definition set_h_triggered (v : gset string) (h : HorrorEvents) : HorrorEvents :=
  MkHorrorEvents v (flickerOverride h) (scareTimer h) (nextScareTime h)
    (shadowVisible h) (shadowOpacity h).
Definition set_flickerOverride (v : Q) (h : HorrorEvents) : HorrorEvents :=
  MkHorrorEvents (h_triggered h) v (scareTimer h) (nextScareTime h)
    (shadowVisible h) (shadowOpacity h).
Definition set_scareTimer (v : Q) (h : HorrorEvents) : HorrorEvents :=
  MkHorrorEvents (h_triggered h) (flickerOverride h) v (nextScareTime h)
    (shadowVisible h) (shadowOpacity h).
Definition set_nextScareTime (v : Q) (h : HorrorEvents) : HorrorEvents :=
  MkHorrorEvents (h_triggered h) (flickerOverride h) (scareTimer h) v
    (shadowVisible h) (shadowOpacity h).
Definition set_shadow (vis : bool) (op : Q) (h : HorrorEvents) : HorrorEvents :=
  MkHorrorEvents (h_triggered h) (flickerOverride h) (scareTimer h)
    (nextScareTime h) vis op.

(* ===================================================================== *)
(** ** Handlers run in a state monad with exceptions                       *)
(* ===================================================================== *)

(** A handler either completes or throws (a [TypeError] on a missing
    object); what it wrote before throwing stays written. *)
Inductive Result (A : Type) : Type :=
| Ok (a : A) (s : State)
| Exn (s : State).
Arguments Ok {A} a s.
Arguments Exn {A} s.

Definition M (A : Type) : Type := State -> Result A.

Global Instance M_ret : MRet M := fun A a s => Ok a s.
Global Instance M_bind : MBind M := fun A B k m s =>
  match m s with
  | Ok a s' => k a s'
  | Exn s' => Exn s'
  end.

Definition gets {A : Type} (f : State -> A) : M A := fun s => Ok (f s) s.
Definition modify (f : State -> State) : M unit := fun s => Ok tt (f s).
Definition throw {A : Type} : M A := fun s => Exn s.

(** The state a handler leaves behind, thrown or not: an uncaught error
    ends the callback and the event loop carries on. *)
Definition exec {A : Type} (m : M A) (s : State) : State :=
  match m s with
  | Ok _ s' => s'
  | Exn s' => s'
  end.

Definition throws {A : Type} (m : M A) (s : State) : bool :=
  match m s with
  | Ok _ _ => false
  | Exn _ => true
  end.

Fixpoint forEach {A : Type} (l : list A) (body : A -> M unit) : M unit :=
  match l with
  | [] => mret tt
  | x :: rest => body x ;; forEach rest body
  end.

Definition emit (e : Effect) : M unit :=
  modify (fun s => set_log (e :: log s) s).

(** [showHint(text)]; hiding the hint five seconds later is the HUD's
    business. *)
Definition showHint (text : string) : M unit := emit (Hint text).
Definition audio (c : Cue) : M unit := emit (Audio c).
Definition _playTone (freq dur vol : Q) : M unit := emit (Tone freq dur vol).

(** [setTimeout(callback, delay)]. *)
Definition setTimeout (callback : Action) (delay : Z) : M unit :=
  modify (fun s => set_timers (timers s ++ [((nowMs s + delay)%Z, callback)]) s).

(** A [requestAnimationFrame] loop over [duration] ms: the frames before
    the last only move meshes; [finish] is what the last frame does. *)
Definition animateFor (duration : Z) (finish : Action) : M unit :=
  setTimeout finish duration.

(** [interactables[i]]: a dangling reference throws on its first field
    access. *)
Definition getObj (i : nat) : M Interactable := fun s =>
  match interactables s !! i with
  | Some o => Ok o s
  | None => Exn s
  end.

Definition updObj (i : nat) (f : Interactable -> Interactable) : M unit :=
  modify (fun s => set_interactables (alter f i (interactables s)) s).

(** [wallBoxes[idx].makeEmpty()]: [wallBoxes[undefined]] and an index past
    the end are [undefined], and calling a method on it throws. *)
Definition makeEmptyAt (idx : option nat) : M unit := fun s =>
  match idx with
  | Some k =>
      match wallBoxes s !! k with
      | Some _ => Ok tt (set_wallBoxes (<[k := makeEmpty]> (wallBoxes s)) s)
      | None => Exn s
      end
  | None => Exn s
  end.

Definition playerHeight : Q := 1.7.

(* ===================================================================== *)
(** ** Notes, the chapter cinematic and the doors                          *)
(* ===================================================================== *)

(** [openNote(content)]: the typewriter timers only fill the viewer. *)
Definition openNote (text : string) : M unit :=
  modify (set_noteOpen true) ;;
  emit (NoteShown text).

(** [triggerChapter2Cinematic()]: step 1 runs at once, steps 2 to 7 are
    six [setTimeout] calls.  What the steps do to scene lights is the
    renderer's; cues, overlays and flags are kept. *)
Definition triggerChapter2Cinematic : M unit :=
  modify (set_paused true) ;;
  audio playTerminal ;;
  showHint "SYSTEM BOOT DETECTED..." ;;
  setTimeout CinematicStep2 2000 ;;
  setTimeout CinematicStep3 4500 ;;
  setTimeout CinematicStep4 5500 ;;
  setTimeout CinematicStep5 7500 ;;
  setTimeout CinematicStep6 12000 ;;
  setTimeout CinematicStep7 14000.

(** [closeNote()]. *)
Definition closeNote : M unit :=
  modify (set_noteOpen false) ;;
  pending ← gets pendingCinematic ;
  ch ← gets chapter ;
  if pending && bool_decide (ch = 1%nat) then
    modify (set_pendingCinematic false) ;;
    triggerChapter2Cinematic
  else mret tt.

(** [openDoor(doorData)]; [doorData] is the [userData] of object [i]. *)
Definition openDoor (i : nat) : M unit :=
  doorData ← getObj i ;
  if opened doorData then mret tt
  else
    updObj i (set_opened true) ;;
    audio playDoorSlam ;;
    animateFor 2000 (DoorAnimDone i).

(** [openSecurityDoor(doorData)]. *)
Definition openSecurityDoor (i : nat) : M unit :=
  doorData ← getObj i ;
  if opened doorData then mret tt
  else
    updObj i (set_opened true) ;;
    updObj i (set_indicColor 0x00ff00) ;;
    updObj i (set_indicEmissive 0x00ff00) ;;
    updObj i (set_secLightColor 0x00ff44) ;;
    audio playTerminal ;;
    showHint "ACCESS GRANTED" ;;
    setTimeout (SecDoorStart i) 1500.

(* ===================================================================== *)
(** ** The interaction dispatcher                                          *)
(* ===================================================================== *)

(** Whether a branch of the dispatcher ran into a [return]. *)
Inductive Flow : Type := Fallthrough | Returned.

Definition Q_of_nat (n : nat) : Q := inject_Z (Z.of_nat n).

(** The [if]/[else if] chain of [tryInteract] on [obj.userData.type], for
    the object [obj = interactables[i]] that the ray resolved to. *)
Definition dispatch (i : nat) (obj : Interactable) : M Flow :=
  match type_ obj with
  | T_note =>
      openNote (content obj) ;;
      mret Fallthrough
  | T_terminal =>
      openNote (content obj) ;;
      audio playTerminal ;;
      mret Fallthrough
  | T_vhs =>
      openNote (content obj) ;;
      audio playStatic ;;
      mret Fallthrough
  | T_door =>
      openDoor i ;;
      mret Fallthrough
  | T_final_terminal =>
      openNote (content obj) ;;
      audio playTerminal ;;
      modify (set_finalTerminalRead true) ;;
      modify (set_pendingCinematic true) ;;
      mret Fallthrough
  | T_keycard =>
      modify (set_hasKeycard true) ;;
      updObj i (set_visible false) ;;
      updObj i (set_interactable false) ;;
      updObj i (set_glowVisible false) ;;
      audio playClick ;;
      showHint "Level 5 Access Card acquired" ;;
      mret Fallthrough
  | T_valve =>
      if negb (turned obj) then
        updObj i (set_turned true) ;;
        updObj i (set_indicColor 0x00ff00) ;;
        updObj i (set_indicEmissive 0x00ff00) ;;
        n ← gets valvesTurned ;
        _playTone (300 + Q_of_nat n * 100) 0.3 0.15 ;;
        modify (set_valvesTurned (S n)) ;;
        n' ← gets valvesTurned ;
        showHint ("Valve " +:+ pretty n' +:+ "/3 activated") ;;
        (if bool_decide (3 ≤ n')%nat then setTimeout ValveExitOpen 1500
         else mret tt) ;;
        mret Fallthrough
      else mret Fallthrough
  | T_hatch =>
      read ← gets finalTerminalRead ;
      if negb read || negb (interactable obj) then
        showHint "The hatch is sealed shut" ;;
        mret Returned
      else
        modify (set_camera (V3 (-13) (-4 + playerHeight) (-26))) ;;
        showHint "You descend into the cooling tunnels..." ;;
        audio playDoorSlam ;;
        mret Fallthrough
  | T_keycard_10 =>
      modify (set_hasKeycard10 true) ;;
      updObj i (set_visible false) ;;
      updObj i (set_interactable false) ;;
      updObj i (set_glowVisible false) ;;
      audio playClick ;;
      showHint "Level 10 Emergency Keycard acquired" ;;
      mret Fallthrough
  | T_escape_door =>
      if opened obj then mret Returned
      else
        k10 ← gets hasKeycard10 ;
        if negb k10 then
          showHint "LOCKED — Level 10 clearance required" ;;
          _playTone 150 0.15 0.1 ;;
          mret Fallthrough
        else
          updObj i (set_opened true) ;;
          updObj i (set_indicColor 0x00ff00) ;;
          updObj i (set_indicEmissive 0x00ff00) ;;
          audio playTerminal ;;
          showHint "ACCESS GRANTED — Get to the roof!" ;;
          setTimeout (EscapeGranted i) 1000 ;;
          mret Fallthrough
  | T_locked_door =>
      if opened obj then mret Returned
      else
        k ← gets hasKeycard ;
        if negb k then
          showHint "LOCKED — You need a security access card" ;;
          _playTone 150 0.15 0.1 ;;
          mret Fallthrough
        else
          openSecurityDoor i ;;
          mret Fallthrough
  | T_other => mret Fallthrough
  end.

(** [tryInteract()].  [hit] is what the ray from the view centre found:
    [None] when [hits.length] is 0, else the index of the object the first
    hit resolves to (itself when it carries a type, else its parent). *)
Definition tryInteract (hit : option nat) : M unit :=
  p ← gets paused ;
  n ← gets noteOpen ;
  if p || n then mret tt
  else
    match hit with
    | None => mret tt
    | Some i =>
        obj ← getObj i ;
        if negb (interactable obj) then mret tt
        else
          flow ← dispatch i obj ;
          match flow with
          | Returned => mret tt
          | Fallthrough =>
              modify (fun s => set_collectiblesFound (S (collectiblesFound s)) s)
          end
    end.

(* ===================================================================== *)
(** ** Deferred callbacks                                                  *)
(* ===================================================================== *)

Definition set_exit_unsealed (td : TunnelData) : TunnelData :=
  MkTunnelData (exitDoorColliderIdx td) 0x00ff00 0x00ff00 1.5 6.

(** The body of each deferred callback. *)
Definition runAction (a : Action) : M unit :=
  match a with
  | ValveExitOpen =>
      showHint "POWER RESTORED — Exit unsealed" ;;
      audio playTerminal ;;
      modify (fun s => set_tunnelData (set_exit_unsealed (tunnelData s)) s) ;;
      animateFor 2000 ExitAnimDone
  | ExitAnimDone =>
      td ← gets tunnelData ;
      makeEmptyAt (Some (exitDoorColliderIdx td))
  | EscapeGranted i =>
      audio playDoorSlam ;;
      obj ← getObj i ;
      makeEmptyAt (doorColliderIdx obj) ;;
      setTimeout EscapeTeleport 500
  | EscapeTeleport =>
      modify (set_camera (V3 37 (4 + playerHeight) (-22))) ;;
      showHint "You emerge onto the rooftop..."
  | SecDoorStart i =>
      audio playDoorSlam ;;
      animateFor 3000 (SecDoorAnimDone i)
  | SecDoorAnimDone i =>
      doorData ← getObj i ;
      makeEmptyAt (doorColliderLeft doorData) ;;
      makeEmptyAt (doorColliderRight doorData) ;;
      showHint "The darkness deepens ahead..."
  | DoorAnimDone i =>
      doorData ← getObj i ;
      match doorColliderLeft doorData with
      | Some _ =>
          makeEmptyAt (doorColliderLeft doorData) ;;
          makeEmptyAt (doorColliderRight doorData)
      | None => mret tt
      end ;;
      showHint "The hallway stretches into darkness..."
  | CinematicStep2 =>
      audio playAlarm ;;
      showHint "⚠ WARNING: UNAUTHORIZED SYSTEM ACCESS ⚠" ;;
      setTimeout (FlickerTick 0) 100
  | FlickerTick flickerCount =>
      if bool_decide (20 < S flickerCount)%nat then mret tt
      else setTimeout (FlickerTick (S flickerCount)) 100
  | CinematicStep3 =>
      audio playBassBoom ;;
      emit (ScreenShake true) ;;
      setTimeout ShakeEnd 800
  | ShakeEnd => emit (ScreenShake false)
  | CinematicStep4 =>
      showHint "EMERGENCY LOCKDOWN INITIATED" ;;
      audio playScare ;;
      emit (Blackout true)
  | CinematicStep5 =>
      emit (Blackout false) ;;
      audio playHeartbeat
  | CinematicStep6 =>
      ht ← gets hatchTrigger ;
      match ht with
      | Some h => updObj h (set_interactable true)
      | None => mret tt
      end ;;
      audio playClick ;;
      showHint "Maintenance hatch unlocked — find it!"
  | CinematicStep7 =>
      modify (set_paused false) ;;
      showHint "Find a way out!"
  | DistantFootstep => emit (RandomTone 50 30 0.06 0.04)
  end.

(* ===================================================================== *)
(** ** Zone-triggered horror events ([HorrorEvents.js])                    *)
(* ===================================================================== *)

Definition events : list ZoneEvent :=
  [ MkZoneEvent "lobby_enter" (V3 0 1.7 8) 4 lights_out;
    MkZoneEvent "hall_midpoint" (V3 0 1.7 (-3)) 3 shadow_figure;
    MkZoneEvent "office_enter" (V3 (-6) 1.7 (-3)) 3 door_slam;
    MkZoneEvent "server_approach" (V3 5 1.7 (-5)) 3 whisper;
    MkZoneEvent "server_deep" (V3 9 1.7 (-9)) 3 heartbeat;
    MkZoneEvent "break_room" (V3 (-12) 1.7 (-19)) 4 tv_scare;
    MkZoneEvent "basement_enter" (V3 12 1.7 (-16)) 3 lights_out;
    MkZoneEvent "basement_deep" (V3 12 1.7 (-24)) 3 final_scare ].

Definition whisperZone : Vector3 := V3 9 1.7 (-5).

(** [this] inside a [HorrorEvents] method. *)
Definition getHorror : M HorrorEvents := fun s =>
  match horrorEvents s with
  | Some h => Ok h s
  | None => Exn s
  end.

Definition updHorror (f : HorrorEvents -> HorrorEvents) : M unit :=
  modify (fun s => set_horrorEvents (f <$> horrorEvents s) s).

(** [_screenFlash(className)]; removing the overlay is the HUD's. *)
Definition _screenFlash (className : string) : M unit :=
  emit (ScreenFlash className).

Definition _triggerEvent (event : ZoneEvent) : M unit :=
  match ev_type event with
  | lights_out =>
      updHorror (set_flickerOverride 3) ;;
      audio playScare ;;
      _screenFlash "damage-flash"
  | shadow_figure =>
      updHorror (set_shadow true 0.85) ;;
      audio playScare
  | door_slam =>
      audio playDoorSlam ;;
      _screenFlash "screen-flash"
  | whisper => audio playWhisper
  | heartbeat => audio playHeartbeat
  | tv_scare =>
      audio playStatic ;;
      audio playScare ;;
      _screenFlash "damage-flash"
  | final_scare =>
      audio playScare ;;
      audio playHeartbeat ;;
      _screenFlash "damage-flash" ;;
      updHorror (set_shadow true 1)
  end.

(** One turn of the loop [for (const event of this.events)]. *)
Definition checkZone (playerPos : Vector3) (event : ZoneEvent) : M unit :=
  h ← getHorror ;
  if bool_decide (ev_id event ∈ h_triggered h) then mret tt
  else if distanceLt playerPos (ev_zone event) (ev_radius event) then
    updHorror (fun h => set_h_triggered ({[ ev_id event ]} ∪ h_triggered h) h) ;;
    _triggerEvent event
  else mret tt.

(** [_randomScare(playerPos)] with [roll = Math.random()]. *)
Definition _randomScare (roll : Q) : M unit :=
  if Qltb roll 0.3 then audio playWhisper
  else if Qltb roll 0.5 then audio playDoorSlam
  else if Qltb roll 0.7 then
    setTimeout DistantFootstep 0 ;;
    setTimeout DistantFootstep 400 ;;
    setTimeout DistantFootstep 800 ;;
    setTimeout DistantFootstep 1200
  else audio playHeartbeat.

(** [HorrorEvents.update(delta, elapsed, playerPos)]; [random k] is the
    value of the k-th place where the method calls [Math.random()]. *)
Definition HorrorEvents_update (delta : Q) (playerPos : Vector3)
    (random : nat -> Q) : M unit :=
  forEach events (checkZone playerPos) ;;
  updHorror (fun h => set_scareTimer (scareTimer h + delta) h) ;;
  h ← getHorror ;
  (if Qgtb (scareTimer h) (nextScareTime h) then
     updHorror (set_scareTimer 0) ;;
     updHorror (set_nextScareTime (20 + random 0%nat * 30)) ;;
     _randomScare (random 1%nat)
   else mret tt) ;;
  (if distanceLt playerPos whisperZone 8 && Qltb (random 2%nat) 0.002
   then audio playWhisper else mret tt) ;;
  h ← getHorror ;
  (if Qgtb (flickerOverride h) 0
   then updHorror (set_flickerOverride (flickerOverride h - delta))
   else mret tt) ;;
  h ← getHorror ;
  if shadowVisible h then
    let opacity := shadowOpacity h - delta * 0.5 in
    updHorror (set_shadow (negb (Qle_bool opacity 0)) opacity)
  else mret tt.

(* ===================================================================== *)
(** ** The entity ([Entity.js])                                            *)
(* ===================================================================== *)

Definition getEntity : M EntityState := fun s =>
  match entitySystem s with
  | Some e => Ok e s
  | None => Exn s
  end.

Definition setEntity (e : EntityState) : M unit :=
  modify (set_entitySystem (Some e)).

(** [update(delta, elapsed, playerPos)] of the entity, up to the end of its
    visibility cycle.  The steering that follows (patrol and chase, which
    normalise vectors) and the glitch animation are not modelled. *)
Definition Entity_update (delta : Q) (random : nat -> Q) : M unit :=
  e ← getEntity ;
  let e1 := MkEntityState (e_active e) (activateTime e - delta) (visibleTimer e)
              (appearsFor e) (hideFor e) (isShowing e) in
  setEntity e1 ;;
  if Qgtb (activateTime e1) 0 then mret tt
  else
    (if negb (e_active e1) then audio playWhisper else mret tt) ;;
    let vt := visibleTimer e1 + delta in
    if isShowing e1 then
      if Qgtb vt (appearsFor e1) then
        setEntity (MkEntityState true (activateTime e1) 0 (appearsFor e1)
                     (10 + random 3%nat * 20) false)
      else
        setEntity (MkEntityState true (activateTime e1) vt (appearsFor e1)
                     (hideFor e1) true)
    else
      if Qgtb vt (hideFor e1) then
        setEntity (MkEntityState true (activateTime e1) 0
                     (3 + random 4%nat * 5) (hideFor e1) true) ;;
        audio playScare
      else
        setEntity (MkEntityState true (activateTime e1) vt (appearsFor e1)
                     (hideFor e1) false).

(* ===================================================================== *)
(** ** The game loop                                                       *)
(* ===================================================================== *)

(** What one frame reads from outside the script: [clock.getDelta()], the
    world-space [moveVec] (camera basis times speed times delta), the value
    of [Math.sin(bobTime)], and the frame's [Math.random()] draws. *)
Record FrameInput : Type := MkFrameInput {
  getDelta : Q;
  moveVecX : Q;
  moveVecZ : Q;
  sinBob : Q;
  random : nat -> Q
}.

(** "Try X movement": the camera after the tentative X step and its
    possible revert. *)
Definition tryX (walls : list Box3) (pos : Vector3) (mx : Q) : Vector3 :=
  let oldX := vx pos in
  let moved := setX pos (oldX + mx) in
  if checkCollision walls moved then setX moved oldX else moved.

(** "Try Z movement", from wherever the X step left the camera. *)
Definition tryZ (walls : list Box3) (pos : Vector3) (oldZ mz : Q) : Vector3 :=
  let moved := setZ pos (vz pos + mz) in
  if checkCollision walls moved then setZ moved oldZ else moved.

(** Per-axis resolution of one move vector. *)
Definition resolveMove (walls : list Box3) (pos : Vector3) (mx mz : Q) : Vector3 :=
  let oldZ := vz pos in
  tryZ walls (tryX walls pos mx) oldZ mz.

Definition Z_of_bool (b : bool) : Z := if b then 1%Z else 0%Z.

(** [state.direction] has non-zero length: normalising keeps a zero vector
    zero and any other vector at length one. *)
Definition directionNonZero (s : State) : bool :=
  negb (Z_of_bool (moveForward s) - Z_of_bool (moveBackward s) =? 0)%Z
  || negb (Z_of_bool (moveRight s) - Z_of_bool (moveLeft s) =? 0)%Z.

(** "Movement with collision detection". *)
Definition movement (inp : FrameInput) : M unit :=
  nz ← gets directionNonZero ;
  if (nz : bool) then
    modify (fun s =>
      set_camera (resolveMove (wallBoxes s) (camera s) (moveVecX inp) (moveVecZ inp)) s)
  else mret tt.

Definition isMoving (s : State) : bool :=
  moveForward s || moveBackward s || moveLeft s || moveRight s.

(** [getHeadBob(delta, isMoving, isSprinting)], the phase being read off
    the frame input. *)
Definition getHeadBob (inp : FrameInput) (moving isSprinting : bool) : Q :=
  if negb moving then 0
  else sinBob inp * (if isSprinting then 0.06 else 0.03).

(** "Determine player level". *)
Definition floorOf (playerY : Q) : Q :=
  if Qgtb playerY 2 then 4
  else if Qltb playerY 0 then -4
  else 0.

Definition clampXZ (p : Vector3) (x0 x1 z0 z1 : Q) : Vector3 :=
  V3 (clamp (vx p) x0 x1) (vy p) (clamp (vz p) z0 z1).

(** Sets the camera height from the floor band and clamps to the band's
    bounds; returns [floorY]. *)
Definition levelAndBounds (inp : FrameInput) : M Q :=
  pos ← gets camera ;
  moving ← gets isMoving ;
  sprint ← gets sprinting ;
  let floorY := floorOf (vy pos) in
  let pos1 := setY pos (floorY + playerHeight + getHeadBob inp moving sprint) in
  let pos2 :=
    if Qeq_bool floorY (-4) then clampXZ pos1 (-15.5) 39.5 (-42.5) (-23.5)
    else if Qeq_bool floorY 4 then clampXZ pos1 20.5 49.5 (-20.5) (-0.5)
    else clampXZ pos1 (-17.5) 17.5 (-27.5) 13.5 in
  modify (set_camera pos2) ;;
  mret floorY.

(** "Rooftop edge trigger". *)
Definition rooftopTrigger (floorY : Q) : M unit :=
  rd ← gets rooftopData ;
  match rd with
  | Some tz =>
      if Qeq_bool floorY 4 && negb (triggered tz) then
        pos ← gets camera ;
        if containsPoint (triggerZoneBox tz) pos then
          modify (set_rooftopData (Some (MkRooftopData (triggerZoneBox tz) true))) ;;
          triggerChapter2Cinematic
        else mret tt
      else mret tt
  | None => mret tt
  end.

(** "Battery drain". *)
Definition batteryDrain (delta : Q) : M unit :=
  on ← gets flashlightOn ;
  b ← gets battery ;
  if on && Qgtb b 0 then
    let b' := b - delta * 1.2 in
    if Qle_bool b' 0 then
      modify (set_battery 0) ;;
      modify (set_flashlightOn false)
    else modify (set_battery b')
  else mret tt.

(** The two guards of "Horror events and entity only active in chapter 2+". *)
Definition horrorGate (s : State) : bool :=
  bool_decide (is_Some (horrorEvents s)) && bool_decide (2 ≤ chapter s)%nat.

Definition entityGate (s : State) : bool :=
  bool_decide (is_Some (entitySystem s)) && bool_decide (2 ≤ chapter s)%nat.

(** [animate()], one frame.  The flashlight pose, the prompt ray, the
    blizzard, steam and footstep cadence and the render call only feed the
    screen and the speakers and are left out. *)
Definition animate (inp : FrameInput) : M unit :=
  let delta := Qminb (getDelta inp) 0.1 in
  pl ← gets playing ;
  pa ← gets paused ;
  nt ← gets noteOpen ;
  if pl && negb pa && negb nt then
    movement inp ;;
    floorY ← levelAndBounds inp ;
    rooftopTrigger floorY ;;
    batteryDrain delta ;;
    hg ← gets horrorGate ;
    (if (hg : bool) then
       pos ← gets camera ;
       HorrorEvents_update delta pos (random inp)
     else mret tt) ;;
    eg ← gets entityGate ;
    (if (eg : bool) then Entity_update delta (random inp) else mret tt)
  else mret tt.

(* ===================================================================== *)
(** ** Input events and the session                                        *)
(* ===================================================================== *)

Inductive KeyCode : Type :=
| KeyW | ArrowUp | KeyS | ArrowDown | KeyA | ArrowLeft | KeyD | ArrowRight
| ShiftLeft | KeyF | KeyE | OtherKey.

(** [toggleFlashlight()]. *)
Definition toggleFlashlight : M unit :=
  b ← gets battery ;
  if Qle_bool b 0 then mret tt
  else
    modify (fun s => set_flashlightOn (negb (flashlightOn s)) s) ;;
    audio playClick.

(** [onKeyDown(e)]; [hit] is what the interaction ray would find now. *)
Definition onKeyDown (code : KeyCode) (hit : option nat) : M unit :=
  pl ← gets playing ;
  if negb pl then mret tt
  else
    match code with
    | KeyW | ArrowUp => modify (set_moveForward true)
    | KeyS | ArrowDown => modify (set_moveBackward true)
    | KeyA | ArrowLeft => modify (set_moveLeft true)
    | KeyD | ArrowRight => modify (set_moveRight true)
    | ShiftLeft => modify (set_sprinting true)
    | KeyF => toggleFlashlight
    | KeyE => tryInteract hit
    | OtherKey => mret tt
    end.

(** [onKeyUp(e)]. *)
Definition onKeyUp (code : KeyCode) : M unit :=
  match code with
  | KeyW | ArrowUp => modify (set_moveForward false)
  | KeyS | ArrowDown => modify (set_moveBackward false)
  | KeyA | ArrowLeft => modify (set_moveLeft false)
  | KeyD | ArrowRight => modify (set_moveRight false)
  | ShiftLeft => modify (set_sprinting false)
  | KeyF | KeyE | OtherKey => mret tt
  end.

(** [startGame()], [resumeGame()], [quitToMenu()]. *)
Definition startGame : M unit :=
  modify (set_playing true) ;;
  modify (set_paused false) ;;
  emit StartAmbience ;;
  showHint "Legacy HQ — Ottawa, Canada
February 2026".

Definition resumeGame : M unit := modify (set_paused false).

Definition quitToMenu : M unit :=
  modify (set_playing false) ;;
  modify (set_paused false) ;;
  emit StopAll.

(** The listeners on the pointer-lock controls. *)
Definition onLock : M unit :=
  pl ← gets playing ;
  nt ← gets noteOpen ;
  if pl && negb nt then modify (set_paused false) else mret tt.

Definition onUnlock : M unit :=
  pl ← gets playing ;
  nt ← gets noteOpen ;
  if pl && negb nt then modify (set_paused true) else mret tt.

(** A pending callback runs once the clock has reached its due time. *)
Definition fireTimer (k : nat) : M unit := fun s =>
  match timers s !! k with
  | Some (due, a) =>
      if (due <=? nowMs s)%Z
      then runAction a (set_timers (delete k (timers s)) s)
      else Ok tt s
  | None => Ok tt s
  end.

(** Everything the browser can deliver to the script. *)
Inductive Event : Type :=
| KeyDown (code : KeyCode) (hit : option nat)
| KeyUp (code : KeyCode)
| ClickPlay
| ClickCloseNote
| ClickResume
| ClickQuit
| PointerLock
| PointerUnlock
| AnimationFrame (inp : FrameInput)
| TimerFires (k : nat)
| Elapse (ms : Z).

Definition handler (ev : Event) : M unit :=
  match ev with
  | KeyDown code hit => onKeyDown code hit
  | KeyUp code => onKeyUp code
  | ClickPlay => startGame
  | ClickCloseNote => closeNote
  | ClickResume => resumeGame
  | ClickQuit => quitToMenu
  | PointerLock => onLock
  | PointerUnlock => onUnlock
  | AnimationFrame inp => animate inp
  | TimerFires k => fireTimer k
  | Elapse ms => modify (fun s => set_nowMs (nowMs s + Z.max 0 ms)%Z s)
  end.

Definition step (s : State) (ev : Event) : State := exec (handler ev) s.

Definition run (s : State) (evs : list Event) : State := foldl step s evs.

(** What the four level builders hand to [init]: their collider lists,
    their interactables, and the references [init] keeps.  Indices are as
    the builders computed them, each into its own collider list. *)
Record Level : Type := MkLevel {
  hq_colliders : list Box3;
  hq_interactables : list Interactable;
  hq_hatchTrigger : nat;
  tunnel_colliders : list Box3;
  tunnel_interactables : list Interactable;
  tunnel_exitDoorColliderIdx : nat;
  lab_colliders : list Box3;
  lab_interactables : list Interactable;
  rooftop_colliders : list Box3;
  rooftop_interactables : list Interactable;
  rooftop_triggerZone : Box3;
  firstScareRoll : Q
}.

(** The session as [init()] leaves it. *)
Definition init (lv : Level) : State :=
  {| playing := false;
     paused := false;
     noteOpen := false;
     flashlightOn := true;
     battery := 100;
     moveForward := false;
     moveBackward := false;
     moveLeft := false;
     moveRight := false;
     sprinting := false;
     collectiblesFound := 0;
     chapter := 1;
     valvesTurned := 0;
     hasKeycard := false;
     hasKeycard10 := false;
     finalTerminalRead := false;
     pendingCinematic := false;
     hatchTrigger := Some (hq_hatchTrigger lv);
     tunnelData :=
       MkTunnelData (tunnel_exitDoorColliderIdx lv) 0xff0000 0xff0000 0 0;
     rooftopData := Some (MkRooftopData (rooftop_triggerZone lv) false);
     camera := V3 0 playerHeight 5.5;
     wallBoxes :=
       hq_colliders lv ++ tunnel_colliders lv ++ lab_colliders lv
       ++ rooftop_colliders lv;
     interactables :=
       hq_interactables lv ++ tunnel_interactables lv ++ lab_interactables lv
       ++ rooftop_interactables lv;
     horrorEvents :=
       Some (MkHorrorEvents ∅ 0 0 (15 + firstScareRoll lv * 20) false 0.85);
     entitySystem := None;
     nowMs := 0;
     timers := [];
     log := [] |}.

Definition reachable (lv : Level) (s : State) : Prop :=
  ∃ evs : list Event, s = run (init lv) evs.

(** The pending callback the event loop runs next: the earliest due, the
    first registered among equals. *)
Fixpoint earliest (l : list (Z * Action)) : option (nat * (Z * Action)) :=
  match l with
  | [] => None
  | (d, a) :: rest =>
      match earliest rest with
      | Some (k, (d', a')) =>
          if (d' <? d)%Z then Some (S k, (d', a')) else Some (0%nat, (d, a))
      | None => Some (0%nat, (d, a))
      end
  end.

(** Lets the clock run to [t] with no input arriving: every callback due by
    then runs at its due time, in order.  [None] when [fuel] callbacks were
    not enough. *)
Fixpoint runUntil (fuel : nat) (t : Z) (s : State) : option State :=
  match earliest (timers s) with
  | Some (k, (due, a)) =>
      if (due <=? t)%Z then
        match fuel with
        | O => None
        | S fuel' =>
            runUntil fuel' t
              (exec (runAction a)
                 (set_timers (delete k (timers s))
                    (set_nowMs (Z.max (nowMs s) due) s)))
        end
      else Some (set_nowMs (Z.max (nowMs s) t) s)
  | None => Some (set_nowMs (Z.max (nowMs s) t) s)
  end.

(* ===================================================================== *)
(** ** A cut-down level and the canonical cinematic run                    *)
(* ===================================================================== *)

Definition mkObj (ty : ObjType) (active : bool) (text : string)
    (l r idx : option nat) : Interactable :=
  {| type_ := ty; interactable := active; visible := true; content := text;
     opened := false; turned := false;
     indicColor := 0xff0000; indicEmissive := 0xff0000;
     secLightColor := 0xff2200; glowVisible := true;
     doorColliderLeft := l; doorColliderRight := r; doorColliderIdx := idx |}.

(** The builders' key objects at their source coordinates: the inner door
    (0), the security door (1), the level-5 keycard (2), the final
    terminal (3), the hatch (4), a note (5), the three valves (6 to 8),
    the puzzle terminal (9), the level-10 keycard (10), the escape door
    (11).  Exit-door and escape-door collider indices are, as in the
    builders, positions in the tunnel's and the lab's own lists. *)
Definition miniLevel : Level :=
  {| hq_colliders :=
       [ setFromCenterAndSize (V3 (-1.1) 1.6 4) (V3 2.2 3.2 0.4);
         setFromCenterAndSize (V3 1.1 1.6 4) (V3 2.2 3.2 0.4);
         setFromCenterAndSize (V3 (-1.1) 1.6 (-17)) (V3 2.2 3.2 0.4);
         setFromCenterAndSize (V3 1.1 1.6 (-17)) (V3 2.2 3.2 0.4);
         setFromCenterAndSize (V3 (-13) 0.06 (-26)) (V3 1.5 0.08 1.5) ];
     hq_interactables :=
       [ mkObj T_door true EmptyString (Some 0%nat) (Some 1%nat) None;
         mkObj T_locked_door true EmptyString (Some 2%nat) (Some 3%nat) None;
         mkObj T_keycard true EmptyString None None None;
         mkObj T_final_terminal true ">> PERSONAL LOG" None None None;
         mkObj T_hatch false EmptyString None None None;
         mkObj T_note true "VHS TAPE TRANSCRIPT" None None None ];
     hq_hatchTrigger := 4;
     tunnel_colliders :=
       [ setFromCenterAndSize (V3 19.8 (-2.4) (-36)) (V3 0.4 3.0 3.5) ];
     tunnel_interactables :=
       [ mkObj T_valve true EmptyString None None None;
         mkObj T_valve true EmptyString None None None;
         mkObj T_valve true EmptyString None None None;
         mkObj T_terminal true ">> COOLING SYSTEM" None None None ];
     tunnel_exitDoorColliderIdx := 0;
     lab_colliders :=
       [ setFromCenterAndSize (V3 37 (-2.1) (-24.3)) (V3 3.5 3.2 0.4) ];
     lab_interactables :=
       [ mkObj T_keycard_10 true EmptyString None None None;
         mkObj T_escape_door true EmptyString None None (Some 0%nat) ];
     rooftop_colliders := [];
     rooftop_interactables := [];
     rooftop_triggerZone := setFromCenterAndSize (V3 35 5.5 (-2)) (V3 20 3 3);
     firstScareRoll := 0.5 |}.

(** The session once "play" was clicked. *)
Definition started : State := run (init miniLevel) [ClickPlay].

(** The chapter-ending run started at t = 0, left alone until [t] ms. *)
Definition cinematicAt (s : State) (t : Z) : option State :=
  runUntil 40 t (exec triggerChapter2Cinematic s).

(** [hatchTrigger.userData.interactable], when there is a hatch. *)
Definition hatchInteractable (s : State) : option bool :=
  h ← hatchTrigger s ;
  interactable <$> interactables s !! h.

(** A run of interact calls, each with the ray on the object given. *)
Definition interactAll (s : State) (hits : list nat) : State :=
  foldl (λ s i, exec (tryInteract (Some i)) s) s hits.

(** What one call of [HorrorEvents.update] is given: the frame delta, the
    player position and the frame's random draws. *)
Definition Tick : Type := Q * Vector3 * (nat → Q).

(** A session of [HorrorEvents.update] calls, one per player position. *)
Definition horrorSession (s : State) (ticks : list Tick) : State :=
  foldl (λ s '(delta, pos, rnd), exec (HorrorEvents_update delta pos rnd) s) s ticks.

(** Zone [id] already fired. *)
Definition zoneTriggered (id : string) (s : State) : bool :=
  match horrorEvents s with
  | Some h => bool_decide (id ∈ h_triggered h)
  | None => false
  end.

Definition rooftopTriggered (s : State) : bool :=
  match rooftopData s with
  | Some tz => triggered tz
  | None => false
  end.

(** Sample sessions on the cut-down level: walking forward, and the inner
    door once its slide has finished. *)
Definition walking : State := run started [KeyDown KeyW None].

Definition slideInput : FrameInput := MkFrameInput 0.016 0.1 (-1.4) 0 (λ _, 0).

Definition doorOpened : State :=
  run started [KeyDown KeyE (Some 0%nat); Elapse 2000; TimerFires 0].

(* ===================================================================== *)
(** ** Predicates used in the statements                                   *)
(* ===================================================================== *)

(** [inv P m]: [m] keeps [P], whether it completes or throws. *)
Definition inv {A : Type} (P : State → Prop) (m : M A) : Prop :=
  ∀ s, P s →
    match m s with
    | Ok _ s' => P s'
    | Exn s' => P s'
    end.

(** Wall box [k] has been collapsed by [makeEmpty]. *)
Definition retracted (k : nat) (s : State) : Prop :=
  wallBoxes s !! k = Some makeEmpty.

(** Wall box [k] is still [b], or has been collapsed. *)
Definition keptOrRetracted (k : nat) (b : Box3) (s : State) : Prop :=
  wallBoxes s !! k = Some b ∨ retracted k s.

(** [userData.turned] of object [i]. *)
Definition isTurned (s : State) (i : nat) : bool :=
  match interactables s !! i with
  | Some o => turned o
  | None => false
  end.

(** Number of distinct indices in a list. *)
Definition distinct (l : list nat) : nat := size (list_to_set l : gset nat).

(** A usable valve sits at index [i]. *)
Definition valveAt (s : State) (i : nat) : Prop :=
  ∃ o, interactables s !! i = Some o ∧ type_ o = T_valve ∧ interactable o = true.

(** Object [i] exists and satisfies [Q]. *)
Definition objSat (i : nat) (Q : Interactable → Prop) (s : State) : Prop :=
  ∃ o, interactables s !! i = Some o ∧ Q o.

(** What may never be undone on an object that started as [o]. *)
Definition keeps (o o' : Interactable) : Prop :=
  type_ o' = type_ o
  ∧ (opened o = true → opened o' = true)
  ∧ (turned o = true → turned o' = true)
  ∧ (visible o = false → visible o' = false).

(** The object is in a state its own transition refuses to leave. *)
Definition resolved (o : Interactable) : Prop :=
  (type_ o = T_door ∧ opened o = true)
  ∨ (type_ o = T_locked_door ∧ opened o = true)
  ∨ (type_ o = T_escape_door ∧ opened o = true)
  ∨ (type_ o = T_valve ∧ turned o = true)
  ∨ ((type_ o = T_keycard ∨ type_ o = T_keycard_10) ∧ interactable o = false).

(** Object [i] is switched off and is not the hatch the cinematic
    switches on. *)
Definition staysOff (i : nat) (s : State) : Prop :=
  hatchTrigger s ≠ Some i ∧ objSat i (λ o, interactable o = false) s.

(** The security door as [openSecurityDoor] leaves it: open, indicator
    green, security light green. *)
Definition greenLit (o : Interactable) : Interactable :=
  set_secLightColor 0x00ff44
    (set_indicEmissive 0x00ff00 (set_indicColor 0x00ff00 (set_opened true o))).

(** The callbacks that finish the security door's opening, [n] being the
    position of the door's timer in the pending list: the 1.5 s delay
    runs out, then the 3 s slide ends. *)
Definition secDoorSlide (n : nat) : list Event :=
  [Elapse 1500; TimerFires n; Elapse 3000; TimerFires n].

(** The interact calls that reach the increment at the end of
    [tryInteract]: the game is live, the ray hit an object that is not
    switched off, and the object's branch did not [return] (as the sealed
    hatch and the already-open escape and security doors do). *)
Definition counted (s : State) (hit : option nat) : bool :=
  negb (paused s || noteOpen s)
  && match hit with
     | None => false
     | Some i =>
         match interactables s !! i with
         | None => false
         | Some o =>
             interactable o
             && match type_ o with
                | T_hatch => finalTerminalRead s
                | T_escape_door | T_locked_door => negb (opened o)
                | _ => true
                end
         end
     end.

(** What an event adds to [collectiblesFound]. *)
Definition countedEvent (s : State) (ev : Event) : nat :=
  match ev with
  | KeyDown KeyE hit => if playing s && counted s hit then 1 else 0
  | _ => 0
  end.

(** The session after a successful hatch interact. *)
Definition descended (s : State) : State :=
  set_collectiblesFound (S (collectiblesFound s))
    (set_log (Audio playDoorSlam
              :: Hint "You descend into the cooling tunnels..." :: log s)
       (set_camera (V3 (-13) (-2.3) (-26)) s)).

(** The session after a hatch interact refused with the hint. *)
Definition sealedHint (s : State) : State :=
  set_log (Hint "The hatch is sealed shut" :: log s) s.

(** Up to the roof without reading the final terminal: the level-10
    keycard, the escape door, its two callbacks, then one frame that carries
    the player into the trigger zone on the north edge; and from there the
    cinematic left to run its 14 s. *)
Definition roofRun : State :=
  run started
    [ KeyDown KeyE (Some 10%nat); KeyDown KeyE (Some 11%nat);
      Elapse 1000; TimerFires 0; Elapse 500; TimerFires 0;
      KeyDown KeyW None;
      AnimationFrame (MkFrameInput 0.016 (-2) 20 0 (λ _, 0)) ].

Definition afterRoofCinematic : option State :=
  runUntil 40 15500 roofRun.

(** Effects that only the horror events and the entity issue. *)
Definition horrorOnly (e : Effect) : bool :=
  match e with
  | Audio playWhisper | ScreenFlash _ => true
  | _ => false
  end.

(** Chapter one, as started: no entity, the horror object untouched, and
    nothing of theirs in the effects or among the pending callbacks. *)
Definition dormant (h0 : HorrorEvents) (s : State) : Prop :=
  chapter s = 1%nat
  ∧ entitySystem s = None
  ∧ horrorEvents s = Some h0
  ∧ Forall (λ e, horrorOnly e = false) (log s)
  ∧ Forall (λ t, t.2 ≠ DistantFootstep) (timers s).

(** The player is inside the zone of [event]. *)
Definition inZone (pos : Vector3) (event : ZoneEvent) : bool :=
  distanceLt pos (ev_zone event) (ev_radius event).

(** The condition under which [checkZone] calls the handler of [event]. *)
Definition zoneFires (event : ZoneEvent) (pos : Vector3) (s : State) : bool :=
  negb (zoneTriggered (ev_id event) s) && inZone pos event.

(** What [checkZone] does when it fires: mark, then call the handler. *)
Definition fireZone (event : ZoneEvent) : M unit :=
  updHorror (fun h => set_h_triggered ({[ ev_id event ]} ∪ h_triggered h) h) ;;
  _triggerEvent event.

(** For each tick of a session, whether the handler of [event] is called
    in it. *)
Fixpoint zoneFirings (event : ZoneEvent) (s : State) (ticks : list Tick)
    : list bool :=
  match ticks with
  | [] => []
  | (delta, pos, rnd) :: rest =>
      zoneFires event pos s
      :: zoneFirings event (exec (HorrorEvents_update delta pos rnd) s) rest
  end.

(** Some tick of the list has the player inside the zone. *)
Definition everInside (event : ZoneEvent) (ticks : list Tick) : bool :=
  existsb (λ t : Tick, inZone t.1.2 event) ticks.

(** The condition under which [rooftopTrigger] starts the cinematic. *)
Definition rooftopFires (floorY : Q) (s : State) : bool :=
  match rooftopData s with
  | Some tz =>
      Qeq_bool floorY 4 && negb (triggered tz)
      && containsPoint (triggerZoneBox tz) (camera s)
  | None => false
  end.

(** What [rooftopTrigger] does when it fires. *)
Definition fireRooftop : M unit :=
  modify (fun s =>
    match rooftopData s with
    | Some tz => set_rooftopData (Some (MkRooftopData (triggerZoneBox tz) true)) s
    | None => s
    end) ;;
  triggerChapter2Cinematic.

(** A short walk for the horror events: outside every zone, into the
    lobby zone twice, out again, and back in. *)
Definition lobbyWalk : list Tick :=
  [ (0.016, V3 0 1.7 20, λ _, 0.5);
    (0.016, V3 0 1.7 8, λ _, 0.5);
    (0.016, V3 0 1.7 9, λ _, 0.5);
    (0.016, V3 0 1.7 20, λ _, 0.5);
    (0.016, V3 0 1.7 8, λ _, 0.5) ].

(** The horror object exists and zone [id]'s flag has the value [b]. *)
Definition zoneIs (id : string) (b : bool) (s : State) : Prop :=
  is_Some (horrorEvents s) ∧ zoneTriggered id s = b.

Definition lobbyEnter : ZoneEvent :=
  MkZoneEvent "lobby_enter" (V3 0 1.7 8) 4 lights_out.

(** An upper bound on the callbacks a pending callback can lead to, itself
    included: what it schedules weighs less than it does. *)
Definition weight (a : Action) : nat :=
  match a with
  | CinematicStep2 => 22
  | FlickerTick flickerCount => S (20 - flickerCount)
  | ValveExitOpen | EscapeGranted _ | SecDoorStart _ | CinematicStep3 => 2
  | _ => 1
  end.

Definition pendingWork (l : list (Z * Action)) : nat :=
  foldr (λ t n, (weight t.2 + n)%nat) 0%nat l.

(** The hatch [h] is still switched off and its unlock is the one pending
    [CinematicStep6], due at 12 s. *)
Definition hatchLocked (h : nat) (s : State) : Prop :=
  hatchTrigger s = Some h
  ∧ objSat h (λ o, interactable o = false) s
  ∧ (12000%Z, CinematicStep6) ∈ timers s
  ∧ Forall (λ t, t.2 = CinematicStep6 → t.1 = 12000%Z) (timers s).

Definition hatchUnlocked (h : nat) (s : State) : Prop :=
  hatchTrigger s = Some h ∧ objSat h (λ o, interactable o = true) s.

Local Close Scope string_scope.
Local Close Scope Q_scope.

(* ===================================================================== *)
(** ** Reasoning about handlers                                            *)
(* ===================================================================== *)


Lemma inv_exec {A : Type} (P : State → Prop) (m : M A) (s : State) :
  inv P m → P s → P (exec m s).
Proof. intros Hm Hs. specialize (Hm s Hs). unfold exec. by destruct (m s). Qed.

Lemma inv_ret {A : Type} (P : State → Prop) (a : A) : inv P (mret a).
Proof. by intros s Hs. Qed.

Lemma inv_bind {A B : Type} (P : State → Prop) (m : M A) (k : A → M B) :
  inv P m → (∀ a, inv P (k a)) → inv P (m ≫= k).
Proof.
  intros Hm Hk s Hs. specialize (Hm s Hs).
  unfold mbind, M_bind. destruct (m s) as [a s'|s']; [by apply Hk | done].
Qed.

Lemma inv_gets {A : Type} (P : State → Prop) (f : State → A) : inv P (gets f).
Proof. by intros s Hs. Qed.

Lemma inv_throw {A : Type} (P : State → Prop) : inv P (@throw A).
Proof. by intros s Hs. Qed.

Lemma inv_modify (P : State → Prop) (f : State → State) :
  (∀ s, P s → P (f s)) → inv P (modify f).
Proof. intros Hf s Hs. by apply Hf. Qed.

(** When [P] pins down what [gets f] reads, continue with that value. *)
Lemma inv_gets_val {A B : Type} (P : State → Prop) (f : State → A) (v : A)
    (k : A → M B) :
  (∀ s, P s → f s = v) → inv P (k v) → inv P (gets f ≫= k).
Proof.
  intros Hv Hk s Hs. unfold mbind, M_bind, gets. rewrite (Hv s Hs). by apply Hk.
Qed.

Lemma inv_forEach {A : Type} (P : State → Prop) (l : list A) (body : A → M unit) :
  (∀ x, inv P (body x)) → inv P (forEach l body).
Proof.
  intros Hb. induction l as [|x l IH]; simpl.
  - apply inv_ret.
  - apply inv_bind; [apply Hb | intros _; apply IH].
Qed.

Lemma inv_run (P : State → Prop) (s : State) (evs : list Event) :
  (∀ ev, inv P (handler ev)) → P s → P (run s evs).
Proof.
  intros Hh. revert s. induction evs as [|ev evs IH]; intros s Hs; simpl.
  - done.
  - apply IH. unfold step. by apply inv_exec.
Qed.

Lemma inv_getObj (P : State → Prop) (i : nat) : inv P (getObj i).
Proof. intros s Hs. unfold getObj. by destruct (interactables s !! i). Qed.

Lemma inv_getHorror (P : State → Prop) : inv P getHorror.
Proof. intros s Hs. unfold getHorror. by destruct (horrorEvents s). Qed.

Lemma inv_getEntity (P : State → Prop) : inv P getEntity.
Proof. intros s Hs. unfold getEntity. by destruct (entitySystem s). Qed.

Lemma inv_makeEmptyAt (P : State → Prop) (idx : option nat) :
  (∀ s k, P s → k < length (wallBoxes s) →
     P (set_wallBoxes (<[k := makeEmpty]> (wallBoxes s)) s)) →
  inv P (makeEmptyAt idx).
Proof.
  intros HP s Hs. unfold makeEmptyAt. destruct idx as [k|]; [|done].
  destruct (wallBoxes s !! k) eqn:E; [|done].
  apply HP; [done|]. by eapply lookup_lt_Some.
Qed.

Lemma inv_fireTimer (P : State → Prop) (k : nat) :
  (∀ s, P s → P (set_timers (delete k (timers s)) s)) →
  (∀ a, inv P (runAction a)) →
  inv P (fireTimer k).
Proof.
  intros Hd Ha s Hs. unfold fireTimer.
  destruct (timers s !! k) as [[due a]|]; [|done].
  destruct (due <=? nowMs s)%Z; [|done].
  by apply Ha, Hd.
Qed.

(** Walks a handler's code; [tac] closes what each primitive write leaves. *)
Ltac inv_walk tac :=
  repeat first
    [ apply inv_ret
    | apply inv_gets
    | apply inv_throw
    | apply inv_getObj
    | apply inv_getHorror
    | apply inv_getEntity
    | apply inv_bind; [|intros ?]
    | apply inv_forEach; intros ?
    | apply inv_makeEmptyAt; intros ? ? ? ?; tac
    | apply inv_modify; intros ? ?; tac
    | match goal with
      | |- inv _ (if ?b then _ else _) => destruct b
      | |- inv _ (match ?x with _ => _ end) => destruct x
      end ].

Ltac unfold_handlers :=
  unfold handler, onKeyDown, onKeyUp, startGame, resumeGame, quitToMenu,
    onLock, onUnlock, toggleFlashlight, tryInteract, closeNote, animate,
    movement, levelAndBounds, rooftopTrigger, batteryDrain,
    HorrorEvents_update, Entity_update, checkZone, _triggerEvent, _randomScare,
    _screenFlash, dispatch, openDoor, openSecurityDoor, openNote,
    triggerChapter2Cinematic, setEntity, updHorror, updObj, animateFor,
    setTimeout, showHint, audio, _playTone, emit.

Ltac unfold_actions :=
  unfold runAction, animateFor, setTimeout, updObj, showHint, audio,
    _playTone, emit.

(** Runs [tryInteract] symbolically on the state at hand. *)
Ltac run_handler :=
  unfold exec, tryInteract, dispatch, openDoor, openSecurityDoor, openNote,
    getObj, updObj, animateFor, setTimeout, showHint, audio, _playTone, emit,
    mbind, M_bind, mret, M_ret, gets, modify; simpl.


(** [runUntil] is a session: the clock advances and due callbacks fire. *)
Lemma earliest_lookup (l : list (Z * Action)) (k : nat) (d : Z) (a : Action) :
  earliest l = Some (k, (d, a)) → l !! k = Some (d, a).
Proof.
  revert k d a. induction l as [|[d0 a0] l IH]; intros k d a; simpl; [done|].
  destruct (earliest l) as [[k' [d' a']]|].
  - destruct (d' <? d0)%Z; intros [= <- <- <-]; [by apply IH | done].
  - by intros [= <- <- <-].
Qed.

Lemma runUntil_run (fuel : nat) (t : Z) (s s' : State) :
  runUntil fuel t s = Some s' → ∃ evs, s' = run s evs.
Proof.
  assert (Hstop : ∀ s0, set_nowMs (Z.max (nowMs s0) t) s0
                        = run s0 [Elapse (t - nowMs s0)]).
  { intros s0. unfold run, step, handler, exec, modify; simpl.
    f_equal. lia. }
  revert s. induction fuel as [|fuel IH]; intros s; simpl.
  - destruct (earliest (timers s)) as [[k [due a]]|].
    + destruct (due <=? t)%Z; [done|]. intros [= <-]. eexists. apply Hstop.
    + intros [= <-]. eexists. apply Hstop.
  - destruct (earliest (timers s)) as [[k [due a]]|] eqn:Ee.
    + destruct (due <=? t)%Z.
      * intros Hrun. destruct (IH _ Hrun) as [evs ->].
        exists (Elapse (due - nowMs s) :: TimerFires k :: evs).
        unfold run at 2. simpl. fold (run (step (step s (Elapse (due - nowMs s))) (TimerFires k)) evs).
        f_equal.
        unfold step, handler, exec, modify, fireTimer; simpl.
        rewrite (earliest_lookup _ _ _ _ Ee).
        replace (nowMs s + Z.max 0 (due - nowMs s))%Z with (Z.max (nowMs s) due) by lia.
        destruct (Z.leb_spec due (Z.max (nowMs s) due)); [done | lia].
      * intros [= <-]. eexists. apply Hstop.
    + intros [= <-]. eexists. apply Hstop.
Qed.

(* ===================================================================== *)
(** ** Movement and collision                                              *)
(* ===================================================================== *)

Lemma tryX_free (walls : list Box3) (p : Vector3) (mx : Q) :
  checkCollision walls p = false → checkCollision walls (tryX walls p mx) = false.
Proof.
  intros Hp. unfold tryX.
  destruct (checkCollision walls (setX p (vx p + mx))) eqn:E; [|done].
  destruct p as [x y z]; exact Hp.
Qed.

Lemma tryZ_free (walls : list Box3) (p : Vector3) (mz : Q) :
  checkCollision walls p = false →
  checkCollision walls (tryZ walls p (vz p) mz) = false.
Proof.
  intros Hp. unfold tryZ.
  destruct (checkCollision walls (setZ p (vz p + mz))) eqn:E; [|done].
  destruct p as [x y z]; exact Hp.
Qed.

Lemma resolveMove_free (walls : list Box3) (p : Vector3) (mx mz : Q) :
  checkCollision walls p = false →
  checkCollision walls (resolveMove walls p mx mz) = false.
Proof.
  intros Hp. unfold resolveMove.
  replace (vz p) with (vz (tryX walls p mx)).
  - apply tryZ_free, tryX_free, Hp.
  - unfold tryX. by destruct (checkCollision walls (setX p (vx p + mx))), p.
Qed.

Lemma resolveMove_eq (walls : list Box3) (x y z mx mz : Q) :
  resolveMove walls (V3 x y z) mx mz
  = let x1 := (if checkCollision walls (V3 (x + mx) y z) then x else x + mx)%Q in
    V3 x1 y (if checkCollision walls (V3 x1 y (z + mz)) then z else z + mz)%Q.
Proof.
  unfold resolveMove, tryZ, tryX, setX, setZ; simpl.
  destruct (checkCollision walls (V3 (x + mx) y z)); simpl.
  - by destruct (checkCollision walls (V3 x y (z + mz))).
  - by destruct (checkCollision walls (V3 (x + mx) y (z + mz))).
Qed.

Lemma movement_camera (inp : FrameInput) (s : State) :
  directionNonZero s = true →
  exec (movement inp) s
  = set_camera (resolveMove (wallBoxes s) (camera s) (moveVecX inp) (moveVecZ inp)) s.
Proof.
  intros Hnz. unfold movement, exec, mbind, M_bind, gets, modify. by rewrite Hnz.
Qed.

(** C1. In a frame whose direction vector is non-zero, the move is resolved
    one axis at a time: the X delta is applied and taken back if the
    player's 0.5 x 1.7 x 0.5 box then overlaps a wall box, and the Z delta
    likewise from wherever X left the camera.  Starting from a free
    position the camera never ends inside a collider; when X alone is
    blocked it ends exactly at the old position plus the Z delta, when Z
    alone is blocked exactly at the old position plus the X delta, and
    that position is free: nothing of the unblocked axis is lost.  With
    both blocked it stays where it was. *)
Theorem C1_per_axis_sliding (inp : FrameInput) (s : State) :
  directionNonZero s = true →
  checkCollision (wallBoxes s) (camera s) = false →
  let walls := wallBoxes s in
  let p := camera s in
  let mx := moveVecX inp in
  let mz := moveVecZ inp in
  let blockedX := checkCollision walls (V3 (vx p + mx) (vy p) (vz p)) in
  let x1 := (if blockedX then vx p else vx p + mx)%Q in
  let blockedZ := checkCollision walls (V3 x1 (vy p) (vz p + mz)) in
  let s' := exec (movement inp) s in
  camera s' = V3 x1 (vy p) (if blockedZ then vz p else vz p + mz)%Q
  ∧ wallBoxes s' = walls
  ∧ checkCollision walls (camera s') = false
  ∧ (blockedX = true → blockedZ = false →
       camera s' = V3 (vx p) (vy p) (vz p + mz))
  ∧ (blockedX = false → blockedZ = true →
       camera s' = V3 (vx p + mx) (vy p) (vz p))
  ∧ (blockedX = true → blockedZ = true → camera s' = p).
Proof.
  intros Hnz Hfree. simpl.
  rewrite (movement_camera inp s Hnz). simpl.
  pose proof (resolveMove_free (wallBoxes s) (camera s) (moveVecX inp)
                (moveVecZ inp) Hfree) as Hres.
  destruct (camera s) as [x y z]. rewrite resolveMove_eq in *. simpl in *.
  split; [done|]. split; [done|]. split; [done|].
  repeat split; intros HX HZ; rewrite HX in HZ |- *; by rewrite HZ.
Qed.

Lemma C1_witness :
  directionNonZero walking = true
  ∧ checkCollision (wallBoxes walking) (camera walking) = false
  ∧ camera (exec (movement slideInput) walking) = V3 (0 + 0.1) 1.7 5.5.
Proof.
  split; [vm_compute; reflexivity|]. split; [vm_compute; reflexivity|].
  destruct (C1_per_axis_sliding slideInput walking) as (_ & _ & _ & _ & H & _).
  - vm_compute; reflexivity.
  - vm_compute; reflexivity.
  - apply H; vm_compute; reflexivity.
Defined.


(* ===================================================================== *)
(** ** Retracted colliders                                                 *)
(* ===================================================================== *)

Lemma retracted_insert (k j : nat) (s : State) :
  retracted k s → retracted k (set_wallBoxes (<[j := makeEmpty]> (wallBoxes s)) s).
Proof.
  unfold retracted; simpl. intros H.
  destruct (decide (j = k)) as [->|Hne].
  - rewrite list_lookup_insert_eq; [done | by eapply lookup_lt_Some].
  - by rewrite list_lookup_insert_ne.
Qed.

Lemma retracted_runAction (k : nat) (a : Action) : inv (retracted k) (runAction a).
Proof.
  destruct a; unfold_actions;
    inv_walk ltac:(first [by apply retracted_insert | done]).
Qed.

Lemma retracted_handler (k : nat) (ev : Event) : inv (retracted k) (handler ev).
Proof.
  destruct ev; unfold_handlers;
    try (inv_walk ltac:(first [by apply retracted_insert | done]); fail).
  apply inv_fireTimer; [done | apply retracted_runAction].
Qed.

(** The only write to a wall box is its collapse. *)
Lemma keptOrRetracted_insert (k j : nat) (b : Box3) (s : State) :
  keptOrRetracted k b s →
  keptOrRetracted k b (set_wallBoxes (<[j := makeEmpty]> (wallBoxes s)) s).
Proof.
  intros [H|H].
  - destruct (decide (j = k)) as [->|Hne].
    + right. unfold retracted; simpl.
      rewrite list_lookup_insert_eq; [done | by eapply lookup_lt_Some].
    + left. simpl. by rewrite list_lookup_insert_ne.
  - right. by apply retracted_insert.
Qed.

Lemma keptOrRetracted_runAction (k : nat) (b : Box3) (a : Action) :
  inv (keptOrRetracted k b) (runAction a).
Proof.
  destruct a; unfold_actions;
    inv_walk ltac:(first [by apply keptOrRetracted_insert | done]).
Qed.

Lemma keptOrRetracted_handler (k : nat) (b : Box3) (ev : Event) :
  inv (keptOrRetracted k b) (handler ev).
Proof.
  destruct ev; unfold_handlers;
    try (inv_walk ltac:(first [by apply keptOrRetracted_insert | done]); fail).
  apply inv_fireTimer; [done | apply keptOrRetracted_runAction].
Qed.

Lemma walls_only_retract (s : State) (k : nat) (b : Box3) (evs : list Event) :
  wallBoxes s !! k = Some b →
  wallBoxes (run s evs) !! k = Some b ∨ wallBoxes (run s evs) !! k = Some makeEmpty.
Proof.
  intros Hb.
  apply (inv_run (keptOrRetracted k b)); [apply keptOrRetracted_handler | by left].
Qed.

(** A callback that changes a wall box leaves it collapsed: this is how
    the four transitions retract their colliders. *)
Lemma callback_retracts (s : State) (a : Action) (k : nat) :
  wallBoxes (exec (runAction a) s) !! k ≠ wallBoxes s !! k →
  retracted k (exec (runAction a) s).
Proof.
  intros Hne.
  destruct (wallBoxes s !! k) as [b|] eqn:Hb.
  - destruct (inv_exec (keptOrRetracted k b) (runAction a) s) as [H|H];
      [apply keptOrRetracted_runAction | by left | congruence | done].
  - assert (Hlen : length (wallBoxes (exec (runAction a) s)) = length (wallBoxes s)).
    { apply (inv_exec (λ s', length (wallBoxes s') = length (wallBoxes s)));
        [|done].
      destruct a; unfold_actions;
        inv_walk ltac:(first [by (simpl; rewrite length_insert) | done]). }
    exfalso. apply Hne. apply lookup_ge_None in Hb.
    apply lookup_ge_None. lia.
Qed.

Lemma empty_box_never_hit (pos : Vector3) :
  intersectsBox (playerBox pos) makeEmpty = false.
Proof. reflexivity. Qed.

(** C2. A wall box collapsed by [makeEmpty] (which is what finishing the
    door, security-door, valve-exit and escape-door transitions does to
    their colliders) is still that empty box after any further events, and
    the player's box at any position does not intersect it. *)
Theorem C2_retracted_never_hit (s : State) (k : nat) (evs : list Event)
    (pos : Vector3) :
  wallBoxes s !! k = Some makeEmpty →
  ∃ box, wallBoxes (run s evs) !! k = Some box
         ∧ box = makeEmpty
         ∧ intersectsBox (playerBox pos) box = false.
Proof.
  intros Hk. exists makeEmpty. split; [|split; [done | apply empty_box_never_hit]].
  apply (inv_run (retracted k)); [apply retracted_handler | exact Hk].
Qed.

Lemma C2_witness :
  wallBoxes doorOpened !! 0%nat = Some makeEmpty
  ∧ ∃ box, wallBoxes (run doorOpened [AnimationFrame slideInput]) !! 0%nat = Some box
           ∧ box = makeEmpty
           ∧ intersectsBox (playerBox (V3 0 1.7 4)) box = false.
Proof.
  split; [vm_compute; reflexivity|].
  apply C2_retracted_never_hit. vm_compute; reflexivity.
Defined.

(* ===================================================================== *)
(** ** Valves                                                              *)
(* ===================================================================== *)

Lemma tryInteract_valve_unturned (s : State) (i : nat) (o : Interactable) :
  paused s = false → noteOpen s = false →
  interactables s !! i = Some o →
  type_ o = T_valve → interactable o = true → turned o = false →
  let s' := exec (tryInteract (Some i)) s in
  valvesTurned s' = S (valvesTurned s)
  ∧ paused s' = false ∧ noteOpen s' = false
  ∧ interactables s'
    = <[i := set_indicEmissive 0x00ff00 (set_indicColor 0x00ff00 (set_turned true o))]>
        (interactables s).
Proof.
  intros Hp Hn Ho Hty Hint Htu. run_handler.
  rewrite Hp, Hn; simpl. rewrite Ho; simpl. rewrite Hint; simpl.
  rewrite Hty, Htu; simpl.
  assert (Hobjs : alter (set_indicEmissive 65280) i
                    (alter (set_indicColor 65280) i
                       (alter (set_turned true) i (interactables s)))
                  = <[i := set_indicEmissive 65280
                             (set_indicColor 65280 (set_turned true o))]>
                      (interactables s)).
  { apply list_eq; intros j. destruct (decide (i = j)) as [->|Hne].
    - rewrite !list_lookup_alter_eq, Ho; simpl.
      rewrite list_lookup_insert_eq; [done | by eapply lookup_lt_Some].
    - by rewrite !list_lookup_alter_ne, list_lookup_insert_ne. }
  destruct (bool_decide (3 ≤ S (valvesTurned s))%nat); simpl; by rewrite Hp, Hn, Hobjs.
Qed.

Lemma tryInteract_valve_turned (s : State) (i : nat) (o : Interactable) :
  paused s = false → noteOpen s = false →
  interactables s !! i = Some o →
  type_ o = T_valve → interactable o = true → turned o = true →
  exec (tryInteract (Some i)) s
  = set_collectiblesFound (S (collectiblesFound s)) s.
Proof.
  intros Hp Hn Ho Hty Hint Htu. run_handler.
  rewrite Hp, Hn; simpl. rewrite Ho; simpl. rewrite Hint; simpl.
  by rewrite Hty, Htu.
Qed.

Lemma distinct_nil : distinct [] = 0%nat.
Proof. unfold distinct. rewrite list_to_set_nil. apply size_empty. Qed.

Lemma distinct_snoc_old (l : list nat) (i : nat) :
  i ∈ l → distinct (l ++ [i]) = distinct l.
Proof.
  intros Hi. unfold distinct. f_equal. rewrite list_to_set_app_L. simpl.
  assert (Hi' : i ∈ (list_to_set l : gset nat)) by (by apply elem_of_list_to_set).
  rewrite union_empty_r_L, (comm_L (∪)). apply subseteq_union_1_L.
  intros x Hx. apply elem_of_singleton in Hx. by subst.
Qed.

Lemma distinct_snoc_new (l : list nat) (i : nat) :
  i ∉ l → distinct (l ++ [i]) = S (distinct l).
Proof.
  intros Hi. unfold distinct. rewrite list_to_set_app_L. simpl.
  rewrite size_union.
  - rewrite union_empty_r_L, size_singleton. lia.
  - rewrite union_empty_r_L. intros x Hx Hx'.
    apply elem_of_singleton in Hx'. subst x.
    apply Hi. by apply (elem_of_list_to_set (C := gset nat)).
Qed.

Lemma interactAll_snoc (s : State) (l : list nat) (i : nat) :
  interactAll s (l ++ [i]) = exec (tryInteract (Some i)) (interactAll s l).
Proof. unfold interactAll. by rewrite foldl_snoc. Qed.

(** What a run of valve interacts keeps true, from a start where the
    valves it touches are unturned. *)
Lemma interactAll_valves (s : State) (vs : list nat) :
  paused s = false → noteOpen s = false →
  (∀ i, i ∈ vs → valveAt s i ∧ isTurned s i = false) →
  let s' := interactAll s vs in
  paused s' = false ∧ noteOpen s' = false
  ∧ valvesTurned s' = (valvesTurned s + distinct vs)%nat
  ∧ (∀ i, i ∈ vs → valveAt s' i ∧ isTurned s' i = true)
  ∧ (∀ i, i ∉ vs → interactables s' !! i = interactables s !! i).
Proof.
  intros Hp Hn. induction vs as [|i vs IH] using rev_ind; intros Hvs.
  - rewrite distinct_nil. simpl. repeat split; [done|done|lia| |].
    + by apply elem_of_nil in H.
    + by apply elem_of_nil in H.
  - destruct IH as (Hp' & Hn' & Hc & Ht & Hrest).
    { intros j Hj. apply Hvs, elem_of_app. by left. }
    simpl. rewrite interactAll_snoc. set (s1 := interactAll s vs) in *.
    destruct (decide (i ∈ vs)) as [Hin|Hnin].
    + (* already turned by an earlier interact *)
      destruct (Ht i Hin) as ((o & Ho & Hty & Hint) & Htu).
      unfold isTurned in Htu. rewrite Ho in Htu.
      rewrite (tryInteract_valve_turned s1 i o); try done. simpl.
      split; [done|]. split; [done|]. split; [by rewrite distinct_snoc_old|].
      split.
      * intros j Hj. apply Ht. apply elem_of_app in Hj as [Hj|Hj]; [done|].
        apply list_elem_of_singleton in Hj. by subst.
      * intros j Hj. apply Hrest. intros Hj'. apply Hj, elem_of_app. by left.
    + (* first interact on this valve *)
      destruct (Hvs i) as ((o & Ho & Hty & Hint) & Htu).
      { apply elem_of_app. right. by apply list_elem_of_singleton. }
      unfold isTurned in Htu. rewrite Ho in Htu.
      rewrite <- (Hrest i Hnin) in Ho.
      destruct (tryInteract_valve_unturned s1 i o) as (Hc1 & Hp1 & Hn1 & Hobjs);
        try done.
      split; [done|]. split; [done|].
      split; [rewrite Hc1, Hc, distinct_snoc_new by done; lia|].
      split.
      * intros j Hj. unfold valveAt, isTurned. rewrite Hobjs.
        destruct (decide (i = j)) as [->|Hne].
        -- rewrite list_lookup_insert_eq by (by eapply lookup_lt_Some).
           split; [|done]. eexists; split; [done|]. by simpl.
        -- rewrite list_lookup_insert_ne by done.
           apply elem_of_app in Hj as [Hj|Hj].
           ++ apply (Ht j Hj).
           ++ apply list_elem_of_singleton in Hj. by subst.
      * intros j Hj. rewrite Hobjs.
        assert (i ≠ j).
        { intros ->. apply Hj, elem_of_app. right. by apply list_elem_of_singleton. }
        rewrite list_lookup_insert_ne by done.
        apply Hrest. intros Hj'. apply Hj, elem_of_app. by left.
Qed.

(** C3. From a session that is not paused, has no note open, counts zero
    valves and whose valves are unturned, any run of interacts on valves
    leaves [valvesTurned] equal to the number of distinct valves in the
    run, and each of them turned.  One interact on an unturned valve sets
    its flag and adds exactly one; one on a turned valve changes neither
    the counter nor the valve. *)
Theorem C3_valve_counter (s : State) (vs : list nat) :
  paused s = false → noteOpen s = false →
  valvesTurned s = 0%nat →
  (∀ i, i ∈ vs → valveAt s i ∧ isTurned s i = false) →
  valvesTurned (interactAll s vs) = distinct vs
  ∧ (∀ i, i ∈ vs → isTurned (interactAll s vs) i = true)
  ∧ (∀ pre i post, vs = pre ++ i :: post →
       let before := interactAll s pre in
       let after := interactAll s (pre ++ [i]) in
       if isTurned before i
       then valvesTurned after = valvesTurned before
            ∧ interactables after !! i = interactables before !! i
       else valvesTurned after = S (valvesTurned before)
            ∧ isTurned after i = true).
Proof.
  intros Hp Hn H0 Hvs.
  destruct (interactAll_valves s vs Hp Hn Hvs) as (_ & _ & Hc & Ht & _).
  split; [by rewrite Hc, H0|]. split; [intros i Hi; by apply Ht|].
  intros pre i post ->. simpl.
  assert (Hpre : ∀ j, j ∈ pre → valveAt s j ∧ isTurned s j = false).
  { intros j Hj. apply Hvs, elem_of_app. by left. }
  destruct (interactAll_valves s pre Hp Hn Hpre) as (Hp1 & Hn1 & _ & Ht1 & Hrest1).
  rewrite !interactAll_snoc. set (s1 := interactAll s pre) in *.
  destruct (decide (i ∈ pre)) as [Hin|Hnin].
  - destruct (Ht1 i Hin) as ((o & Ho & Hty & Hint) & Htu). rewrite Htu.
    unfold isTurned in Htu. rewrite Ho in Htu.
    by rewrite (tryInteract_valve_turned s1 i o).
  - destruct (Hvs i) as ((o & Ho & Hty & Hint) & Htu).
    { apply elem_of_app. right. by left. }
    unfold isTurned in Htu |- *. rewrite <- (Hrest1 i Hnin) in Ho, Htu.
    rewrite Ho in Htu |- *. rewrite Htu.
    destruct (tryInteract_valve_unturned s1 i o) as (Hc1 & _ & _ & Hobjs); try done.
    split; [done|]. rewrite Hobjs.
    by rewrite list_lookup_insert_eq by (by eapply lookup_lt_Some).
Qed.

Lemma C3_witness :
  valvesTurned (interactAll started [6; 7; 6; 8; 8]) = distinct [6; 7; 6; 8; 8]
  ∧ valvesTurned (interactAll started [6; 7; 6; 8; 8]) = 3.
Proof.
  split; [|vm_compute; reflexivity].
  apply C3_valve_counter; try (vm_compute; reflexivity).
  intros i Hi.
  repeat (apply elem_of_cons in Hi as [->|Hi]);
    try (split; [eexists; split; [vm_compute; reflexivity | split; reflexivity]
                | vm_compute; reflexivity]).
  by apply elem_of_nil in Hi.
Defined.

(* ===================================================================== *)
(** ** One-way object state                                                *)
(* ===================================================================== *)

Lemma objSat_alter (i j : nat) (f : Interactable → Interactable)
    (Q : Interactable → Prop) (s : State) :
  (∀ o, Q o → Q (f o)) →
  objSat i Q s → objSat i Q (set_interactables (alter f j (interactables s)) s).
Proof.
  intros Hf (o & Ho & HQ). unfold objSat; simpl.
  destruct (decide (j = i)) as [->|Hne].
  - exists (f o). rewrite list_lookup_alter_eq, Ho. split; [done | by apply Hf].
  - exists o. by rewrite list_lookup_alter_ne.
Qed.

Lemma objSat_alter_ne (i j : nat) (f : Interactable → Interactable)
    (Q : Interactable → Prop) (s : State) :
  j ≠ i →
  objSat i Q s → objSat i Q (set_interactables (alter f j (interactables s)) s).
Proof.
  intros Hne (o & Ho & HQ). unfold objSat; simpl.
  exists o. by rewrite list_lookup_alter_ne.
Qed.

Ltac keeps_tac :=
  first
    [ assumption
    | apply objSat_alter; [|assumption];
      let o' := fresh "o'" in
      intros o' (? & ? & ? & ?); unfold keeps; simpl; by repeat split; auto ].

Lemma keeps_runAction (i : nat) (o : Interactable) (a : Action) :
  inv (objSat i (keeps o)) (runAction a).
Proof. destruct a; unfold_actions; inv_walk keeps_tac. Qed.

Lemma keeps_handler (i : nat) (o : Interactable) (ev : Event) :
  inv (objSat i (keeps o)) (handler ev).
Proof.
  destruct ev; unfold_handlers; try (inv_walk keeps_tac; fail).
  apply inv_fireTimer; [done | apply keeps_runAction].
Qed.

Lemma hasKeycard_handler (ev : Event) : inv (λ s, hasKeycard s = true) (handler ev).
Proof.
  destruct ev; unfold_handlers; try (inv_walk ltac:(by simpl); fail).
  apply inv_fireTimer; [done|].
  intros a; destruct a; unfold_actions; inv_walk ltac:(by simpl).
Qed.

Lemma hasKeycard10_handler (ev : Event) :
  inv (λ s, hasKeycard10 s = true) (handler ev).
Proof.
  destruct ev; unfold_handlers; try (inv_walk ltac:(by simpl); fail).
  apply inv_fireTimer; [done|].
  intros a; destruct a; unfold_actions; inv_walk ltac:(by simpl).
Qed.


Ltac off_tac :=
  idtac;
  match goal with
  | H : staysOff _ _ |- _ =>
      destruct H as [? ?]; split; [by simpl|];
      first [ assumption | apply objSat_alter; [|assumption]; by simpl ]
  end.

Lemma staysOff_runAction (i : nat) (a : Action) : inv (staysOff i) (runAction a).
Proof.
  destruct a; unfold_actions; try (inv_walk off_tac; fail).
  (* the hatch unlock *)
  intros s [Hh Hobj]. unfold mbind, M_bind, gets, modify; simpl.
  destruct (hatchTrigger s) as [h|] eqn:E; simpl.
  - split; [simpl; by rewrite E|].
    assert (Hne : h ≠ i) by congruence.
    exact (objSat_alter_ne i h (set_interactable true) _ s Hne Hobj).
  - split; [simpl; by rewrite E | exact Hobj].
Qed.

Lemma staysOff_handler (i : nat) (ev : Event) : inv (staysOff i) (handler ev).
Proof.
  destruct ev; unfold_handlers; try (inv_walk off_tac; fail).
  apply inv_fireTimer; [by intros s [? ?] | apply staysOff_runAction].
Qed.

Lemma tryInteract_resolved (s : State) (i : nat) (o : Interactable) :
  interactables s !! i = Some o → resolved o →
  interactables (exec (tryInteract (Some i)) s) !! i = Some o.
Proof.
  intros Ho Hres. run_handler.
  destruct (paused s), (noteOpen s); simpl; try done.
  rewrite Ho; simpl.
  destruct (interactable o) eqn:Hint; simpl; [|done].
  destruct Hres as [[Hty Hop]|[[Hty Hop]|[[Hty Hop]|[[Hty Hop]|[[Hty|Hty] Hoff]]]]];
    rewrite ?Hty, ?Hop; simpl; try done; try congruence.
  by rewrite Ho, Hop.
Qed.

(** C4. Whatever events follow, an object keeps its type, an [opened] or
    [turned] flag that is true stays true, a hidden pickup stays hidden and
    (unless it is the hatch the cinematic unlocks) switched off, and the
    two keycard flags stay true.  An interact on an open door, a turned
    valve or a collected keycard leaves the object as it is. *)
Theorem C4_one_way (s : State) (evs : list Event) (i : nat) (o : Interactable) :
  interactables s !! i = Some o →
  ∃ o', interactables (run s evs) !! i = Some o'
    ∧ type_ o' = type_ o
    ∧ (opened o = true → opened o' = true)
    ∧ (turned o = true → turned o' = true)
    ∧ (visible o = false → visible o' = false)
    ∧ (hatchTrigger s ≠ Some i → interactable o = false → interactable o' = false)
    ∧ (hasKeycard s = true → hasKeycard (run s evs) = true)
    ∧ (hasKeycard10 s = true → hasKeycard10 (run s evs) = true)
    ∧ (resolved o' →
       interactables (exec (tryInteract (Some i)) (run s evs)) !! i = Some o').
Proof.
  intros Ho.
  assert (Hk : objSat i (keeps o) (run s evs)).
  { apply inv_run; [apply keeps_handler|]. exists o. by repeat split. }
  destruct Hk as (o' & Ho' & Hty & Hop & Htu & Hvis).
  exists o'. repeat split; try done.
  - intros Hh Hoff.
    assert (Hs : staysOff i (run s evs)).
    { apply inv_run; [apply staysOff_handler|]. split; [done|]. by exists o. }
    destruct Hs as (_ & o'' & Ho'' & Hoff''). congruence.
  - apply (inv_run (λ s, hasKeycard s = true)), hasKeycard_handler.
  - apply (inv_run (λ s, hasKeycard10 s = true)), hasKeycard10_handler.
  - intros Hres. by apply tryInteract_resolved.
Qed.

Lemma C4_witness :
  let o := set_opened true (mkObj T_door true EmptyString (Some 0) (Some 1) None) in
  let evs := [KeyDown KeyE (Some 0); AnimationFrame slideInput; KeyDown KeyE (Some 6)] in
  interactables doorOpened !! 0 = Some o
  ∧ ∃ o', interactables (run doorOpened evs) !! 0 = Some o' ∧ opened o' = true.
Proof.
  intros o evs. split; [vm_compute; reflexivity|].
  destruct (C4_one_way doorOpened evs 0 o) as (o' & Ho' & _ & Hop & _).
  - vm_compute; reflexivity.
  - exists o'. split; [exact Ho' | by apply Hop].
Defined.

(* ===================================================================== *)
(** ** The security door                                                   *)
(* ===================================================================== *)

Lemma locked_door_rejects (s : State) (i : nat) (o : Interactable) :
  paused s = false → noteOpen s = false → hasKeycard s = false →
  interactables s !! i = Some o →
  type_ o = T_locked_door → interactable o = true → opened o = false →
  tryInteract (Some i) s
  = Ok tt (set_collectiblesFound (S (collectiblesFound s))
             (set_log (Tone 150 0.15 0.1
                       :: Hint "LOCKED — You need a security access card"
                       :: log s) s)).
Proof.
  intros Hp Hn Hk Ho Hty Hint Hop. run_handler.
  rewrite Hp, Hn; simpl. rewrite Ho; simpl. rewrite Hint; simpl.
  rewrite Hty, Hop; simpl. by rewrite Hk.
Qed.

Lemma keycard_pickup (s : State) (j : nat) (kc : Interactable) :
  paused s = false → noteOpen s = false →
  interactables s !! j = Some kc →
  type_ kc = T_keycard → interactable kc = true →
  tryInteract (Some j) s
  = Ok tt (set_collectiblesFound (S (collectiblesFound s))
             (set_log (Hint "Level 5 Access Card acquired" :: Audio playClick :: log s)
                (set_interactables
                   (alter (set_glowVisible false) j
                      (alter (set_interactable false) j
                         (alter (set_visible false) j (interactables s))))
                   (set_hasKeycard true s)))).
Proof.
  intros Hp Hn Ho Hty Hint. run_handler.
  rewrite Hp, Hn; simpl. rewrite Ho; simpl. rewrite Hint; simpl.
  by rewrite Hty.
Qed.


Lemma locked_door_opens (s : State) (i : nat) (o : Interactable) :
  paused s = false → noteOpen s = false → hasKeycard s = true →
  interactables s !! i = Some o →
  type_ o = T_locked_door → interactable o = true → opened o = false →
  tryInteract (Some i) s
  = Ok tt (set_collectiblesFound (S (collectiblesFound s))
             (set_timers (timers s ++ [((nowMs s + 1500)%Z, SecDoorStart i)])
                (set_log (Hint "ACCESS GRANTED" :: Audio playTerminal :: log s)
                   (set_interactables (<[i := greenLit o]> (interactables s)) s)))).
Proof.
  intros Hp Hn Hk Ho Hty Hint Hop. run_handler.
  rewrite Hp, Hn; simpl. rewrite Ho; simpl. rewrite Hint; simpl.
  rewrite Hty, Hop; simpl. rewrite Hk; simpl. rewrite Ho, Hop; simpl.
  replace (alter (set_secLightColor 65348) i
             (alter (set_indicEmissive 65280) i
                (alter (set_indicColor 65280) i
                   (alter (set_opened true) i (interactables s)))))
    with (<[i := greenLit o]> (interactables s)); [done|].
  apply list_eq; intros k. destruct (decide (i = k)) as [->|Hne].
  - rewrite !list_lookup_alter_eq, Ho; simpl.
    rewrite list_lookup_insert_eq; [done | by eapply lookup_lt_Some].
  - by rewrite !list_lookup_alter_ne, list_lookup_insert_ne.
Qed.

Lemma fireTimer_last (s : State) (ts : list (Z * Action)) (d : Z) (a : Action) :
  timers s = ts ++ [(d, a)] → (d ≤ nowMs s)%Z →
  fireTimer (length ts) s = runAction a (set_timers ts s).
Proof.
  intros Ht Hd. unfold fireTimer. rewrite Ht.
  rewrite list_lookup_middle by done.
  destruct (Z.leb_spec d (nowMs s)); [|lia].
  by rewrite delete_middle, app_nil_r.
Qed.

Lemma secDoor_slide_ends (s : State) (i l r : nat) (o : Interactable) :
  interactables s !! i = Some o →
  doorColliderLeft o = Some l → doorColliderRight o = Some r →
  l < length (wallBoxes s) → r < length (wallBoxes s) →
  runAction (SecDoorAnimDone i) s
  = Ok tt (set_log (Hint "The darkness deepens ahead..." :: log s)
             (set_wallBoxes (<[r := makeEmpty]> (<[l := makeEmpty]> (wallBoxes s))) s)).
Proof.
  intros Ho Hl Hr Hll Hrl. unfold_actions.
  unfold getObj, makeEmptyAt, mbind, M_bind, modify; simpl.
  rewrite Ho, Hl, Hr; simpl.
  destruct (lookup_lt_is_Some_2 (wallBoxes s) l Hll) as [bl Hbl]. rewrite Hbl; simpl.
  destruct (lookup_lt_is_Some_2 (<[l := makeEmpty]> (wallBoxes s)) r) as [br Hbr].
  { by rewrite length_insert. }
  by rewrite Hbr.
Qed.

(** Replaces the local definition [x := exec m s] by the state that the
    equation [E : m s = Ok _ _] names. *)
Ltac settle x E :=
  match type of E with
  | _ = Ok _ ?st =>
      let H := fresh "E" x in
      assert (H : x = st) by (unfold x, exec; rewrite E; reflexivity);
      clearbody x
  end.

(** C5. With the game running and the security door locked: an interact
    without the keycard completes without throwing, leaves every object
    (the door included) and every wall box as they were, and issues the
    hint and the 150 Hz tone; once the keycard object has been picked up,
    the next interact opens the door and turns its indicator green, and
    from then on an interact on it changes nothing at all; when the delay
    and the slide have run out both of its colliders are empty boxes. *)
Theorem C5_security_door (s : State) (i j l r : nat) (o kc : Interactable) :
  paused s = false → noteOpen s = false → hasKeycard s = false →
  interactables s !! i = Some o →
  type_ o = T_locked_door → interactable o = true → opened o = false →
  doorColliderLeft o = Some l → doorColliderRight o = Some r →
  l < length (wallBoxes s) → r < length (wallBoxes s) →
  interactables s !! j = Some kc →
  type_ kc = T_keycard → interactable kc = true →
  let s1 := exec (tryInteract (Some i)) s in
  let s2 := exec (tryInteract (Some j)) s1 in
  let s3 := exec (tryInteract (Some i)) s2 in
  let s4 := run s3 (secDoorSlide (length (timers s))) in
  (throws (tryInteract (Some i)) s = false
   ∧ interactables s1 = interactables s
   ∧ wallBoxes s1 = wallBoxes s
   ∧ timers s1 = timers s
   ∧ log s1 = Tone 150 0.15 0.1
              :: Hint "LOCKED — You need a security access card" :: log s)
  ∧ hasKeycard s2 = true
  ∧ (throws (tryInteract (Some i)) s2 = false
     ∧ interactables s3 !! i = Some (greenLit o)
     ∧ opened (greenLit o) = true
     ∧ indicColor (greenLit o) = 0x00ff00%Z
     ∧ exec (tryInteract (Some i)) s3 = s3)
  ∧ (wallBoxes s4 !! l = Some makeEmpty ∧ wallBoxes s4 !! r = Some makeEmpty)
  ∧ (throws (tryInteract (Some i)) s4 = false
     ∧ exec (tryInteract (Some i)) s4 = s4).
Proof.
  intros Hp Hn Hk Ho Hty Hact Hop Hl Hr Hll Hrl Hkc Hkty Hkint s1 s2 s3 s4.
  assert (Hij : i ≠ j) by (intros ->; congruence).
  (* the rejected interact *)
  pose proof (locked_door_rejects s i o Hp Hn Hk Ho Hty Hact Hop) as E1.
  assert (T1 : throws (tryInteract (Some i)) s = false) by (unfold throws; by rewrite E1).
  settle s1 E1.
  (* picking up the keycard *)
  assert (E2 := keycard_pickup s1 j kc).
  rewrite Es1 in E2 at 1 2 3. specialize (E2 Hp Hn Hkc Hkty Hkint).
  settle s2 E2.
  (* the interact that opens *)
  assert (F2 : paused s2 = false ∧ noteOpen s2 = false ∧ hasKeycard s2 = true
               ∧ interactables s2 !! i = Some o ∧ timers s2 = timers s
               ∧ nowMs s2 = nowMs s ∧ wallBoxes s2 = wallBoxes s).
  { rewrite Es2; simpl. rewrite Es1; simpl.
    by rewrite !list_lookup_alter_ne. }
  destruct F2 as (Hp2 & Hn2 & Hk2 & Ho2 & Ht2 & Hnow2 & Hw2).
  pose proof (locked_door_opens s2 i o Hp2 Hn2 Hk2 Ho2 Hty Hact Hop) as E3.
  assert (T3 : throws (tryInteract (Some i)) s2 = false) by (unfold throws; by rewrite E3).
  settle s3 E3.
  assert (Ho3 : interactables s3 !! i = Some (greenLit o)).
  { rewrite Es3; simpl. rewrite list_lookup_insert_eq; [done|].
    by eapply lookup_lt_Some. }
  (* the delay runs out *)
  set (sa := step s3 (Elapse 1500)).
  set (sb := step sa (TimerFires (length (timers s)))).
  set (sc := step sb (Elapse 3000)).
  assert (E4 : s4 = step sc (TimerFires (length (timers s)))) by reflexivity.
  clearbody s4.
  assert (Fa : timers sa = timers s ++ [((nowMs s + 1500)%Z, SecDoorStart i)]
               ∧ nowMs sa = (nowMs s + 1500)%Z
               ∧ interactables sa = interactables s3
               ∧ wallBoxes sa = wallBoxes s
               ∧ paused sa = false ∧ noteOpen sa = false).
  { unfold sa, step, handler, exec, modify; simpl. rewrite Es3; simpl.
    by rewrite Ht2, Hnow2, Hw2, Hp2, Hn2. }
  destruct Fa as (Hta & Hnowa & Hoa & Hwa & Hpa & Hna).
  clearbody sa.
  assert (Eb : sb = set_timers (timers s ++ [((nowMs s + 1500 + 3000)%Z, SecDoorAnimDone i)])
                      (set_log (Audio playDoorSlam :: log sa) sa)).
  { unfold sb, step, handler, exec.
    rewrite (fireTimer_last sa (timers s) (nowMs s + 1500)%Z (SecDoorStart i));
      [|done|lia].
    unfold_actions. unfold mbind, M_bind, modify. simpl. by rewrite Hnowa. }
  clearbody sb.
  assert (Fc : timers sc = timers s ++ [((nowMs s + 1500 + 3000)%Z, SecDoorAnimDone i)]
               ∧ nowMs sc = (nowMs s + 1500 + 3000)%Z
               ∧ interactables sc = interactables s3
               ∧ wallBoxes sc = wallBoxes s
               ∧ paused sc = false ∧ noteOpen sc = false).
  { unfold sc, step, handler, exec, modify; simpl. rewrite Eb; simpl.
    by rewrite Hnowa, Hoa, Hwa, Hpa, Hna. }
  destruct Fc as (Htc & Hnowc & Hoc & Hwc & Hpc & Hnc).
  clearbody sc.
  (* the slide ends *)
  assert (Ed : s4 = set_log (Hint "The darkness deepens ahead..." :: log sc)
                      (set_wallBoxes (<[r := makeEmpty]> (<[l := makeEmpty]> (wallBoxes s)))
                         (set_timers (timers s) sc))).
  { rewrite E4. unfold step, handler, exec.
    rewrite (fireTimer_last sc (timers s) (nowMs s + 1500 + 3000)%Z (SecDoorAnimDone i));
      [|done|lia].
    rewrite (secDoor_slide_ends _ i l r (greenLit o)); simpl; try done.
    - by rewrite Hwc.
    - by rewrite Hoc.
    - by rewrite Hwc.
    - by rewrite Hwc. }
  split. { rewrite Es1; simpl. by repeat split. }
  split; [done|].
  split.
  { split; [done|]. split; [done|]. split; [done|]. split; [done|].
    assert (Hs3 : paused s3 = false ∧ noteOpen s3 = false).
    { rewrite Es3; simpl. by rewrite Hp2, Hn2. }
    destruct Hs3 as (Hp3 & Hn3).
    run_handler. rewrite Hp3, Hn3; simpl. rewrite Ho3; simpl.
    rewrite Hact; simpl. by rewrite Hty. }
  split.
  { rewrite Ed; simpl. split.
    - destruct (decide (l = r)) as [->|Hne].
      + rewrite list_lookup_insert_eq; [done | by rewrite length_insert].
      + rewrite list_lookup_insert_ne by done.
        by rewrite list_lookup_insert_eq.
    - rewrite list_lookup_insert_eq; [done | by rewrite length_insert]. }
  (* the door is open: the dispatcher returns at once *)
  assert (Hs4 : paused s4 = false ∧ noteOpen s4 = false
                ∧ interactables s4 !! i = Some (greenLit o)).
  { rewrite Ed; simpl. by rewrite Hpc, Hnc, Hoc. }
  destruct Hs4 as (Hp4 & Hn4 & Ho4).
  unfold throws. run_handler. rewrite Hp4, Hn4; simpl. rewrite Ho4; simpl.
  rewrite Hact; simpl. by rewrite Hty.
Qed.

Lemma C5_witness :
  let s1 := exec (tryInteract (Some 1)) started in
  let s2 := exec (tryInteract (Some 2)) s1 in
  let s3 := exec (tryInteract (Some 1)) s2 in
  let s4 := run s3 (secDoorSlide (length (timers started))) in
  hasKeycard started = false
  ∧ log s1 = [Tone 150 0.15 0.1;
              Hint "LOCKED — You need a security access card";
              Hint "Legacy HQ — Ottawa, Canada
February 2026"; StartAmbience]
  ∧ wallBoxes s4 !! 2 = Some makeEmpty
  ∧ wallBoxes s4 !! 3 = Some makeEmpty.
Proof.
  intros s1 s2 s3 s4.
  split; [reflexivity|].
  destruct (C5_security_door started 1 2 2 3
              (mkObj T_locked_door true EmptyString (Some 2) (Some 3) None)
              (mkObj T_keycard true EmptyString None None None))
    as ((_ & _ & _ & _ & Hlog) & _ & _ & (Hl & Hr) & _);
    try reflexivity; try (vm_compute; lia).
  split; [exact Hlog|]. split; [exact Hl | exact Hr].
Defined.

(* ===================================================================== *)
(** ** Zone triggers fire once                                             *)
(* ===================================================================== *)

Lemma exec_bind_inv {A B : Type} (Q : State → Prop) (m : M A) (k : A → M B)
    (s : State) :
  Q (exec m s) → (∀ a, inv Q (k a)) → Q (exec (m ≫= k) s).
Proof.
  unfold exec, mbind, M_bind. intros Hm Hk.
  destruct (m s) as [a s1|s1]; [|done].
  specialize (Hk a s1 Hm). by destruct (k a s1).
Qed.

Lemma zoneIs_updHorror (id : string) (b : bool) (f : HorrorEvents → HorrorEvents)
    (s : State) :
  (∀ h, h_triggered (f h) = h_triggered h) →
  zoneIs id b s → zoneIs id b (set_horrorEvents (f <$> horrorEvents s) s).
Proof.
  intros Hf [[h Hh] Hz]. unfold zoneIs, zoneTriggered in *; simpl.
  rewrite Hh in *; simpl. split; [by eexists|]. by rewrite Hf.
Qed.

Ltac zone_tac :=
  first [ assumption
        | by apply zoneIs_updHorror ].

Lemma zoneIs_triggerEvent (id : string) (b : bool) (event : ZoneEvent) :
  inv (zoneIs id b) (_triggerEvent event).
Proof.
  unfold _triggerEvent, updHorror, _screenFlash, audio, emit.
  inv_walk zone_tac.
Qed.

(** One turn of the loop, spelled out. *)
Lemma checkZone_spec (pos : Vector3) (event : ZoneEvent) (s : State) :
  is_Some (horrorEvents s) →
  checkZone pos event s
  = if zoneFires event pos s then fireZone event s else Ok tt s.
Proof.
  intros [h Hh]. unfold checkZone, zoneFires, zoneTriggered, fireZone, inZone, getHorror.
  unfold mbind at 1. unfold M_bind at 1. rewrite Hh; simpl.
  destruct (bool_decide (ev_id event ∈ h_triggered h)); simpl; [done|].
  by destruct (distanceLt pos (ev_zone event) (ev_radius event)).
Qed.

Lemma checkZone_flag (pos : Vector3) (event : ZoneEvent) (id : string) (s : State) :
  is_Some (horrorEvents s) →
  zoneIs id (zoneTriggered id s || (bool_decide (ev_id event = id) && inZone pos event))
    (exec (checkZone pos event) s).
Proof.
  intros Hs. unfold exec. rewrite checkZone_spec by done.
  unfold zoneFires.
  destruct (zoneTriggered (ev_id event) s) eqn:Ht; simpl.
  - split; [done|]. destruct (bool_decide (ev_id event = id)) eqn:E; simpl.
    + apply bool_decide_eq_true in E. subst. by rewrite Ht.
    + by rewrite orb_false_r.
  - destruct (inZone pos event) eqn:Hin; simpl.
    + fold (exec (fireZone event) s). unfold fireZone.
      apply exec_bind_inv; [|intros _; apply zoneIs_triggerEvent].
      destruct Hs as [h Hh]. unfold exec, updHorror, modify, zoneIs, zoneTriggered in *; simpl.
      rewrite Hh in *; simpl. split; [by eexists|].
      rewrite andb_true_r.
      destruct (bool_decide (ev_id event = id)) eqn:E.
      * apply bool_decide_eq_true in E. subst. rewrite orb_true_r.
        apply bool_decide_eq_true, elem_of_union_l. by apply elem_of_singleton.
      * rewrite orb_false_r. apply bool_decide_eq_false in E.
        apply bool_decide_ext. rewrite elem_of_union, elem_of_singleton.
        split; [intros [?|?]; congruence | by right].
    + split; [done|]. by rewrite andb_false_r, orb_false_r.
Qed.

Lemma forEach_zones_flag (pos : Vector3) (id : string) (l : list ZoneEvent)
    (s : State) :
  is_Some (horrorEvents s) →
  zoneIs id (zoneTriggered id s
             || existsb (λ e, bool_decide (ev_id e = id) && inZone pos e) l)
    (exec (forEach l (checkZone pos)) s).
Proof.
  revert s. induction l as [|e l IH]; intros s Hs; simpl.
  - split; [done|]. by rewrite orb_false_r.
  - pose proof (checkZone_flag pos e id s Hs) as [Hs1 Hz1].
    unfold exec, mbind, M_bind in *.
    destruct (checkZone pos e s) as [[] s1|s1] eqn:E1.
    + specialize (IH s1 Hs1). rewrite Hz1 in IH. by rewrite orb_assoc.
    + (* the loop body never throws while the horror object exists *)
      rewrite checkZone_spec in E1 by done.
      destruct (zoneFires e pos s); [|done].
      unfold fireZone, updHorror, _triggerEvent, _screenFlash, audio, emit,
        mbind, M_bind, modify in E1.
      by destruct (ev_type e).
Qed.

Lemma update_flag (delta : Q) (pos : Vector3) (rnd : nat → Q) (id : string)
    (s : State) :
  is_Some (horrorEvents s) →
  zoneIs id (zoneTriggered id s
             || existsb (λ e, bool_decide (ev_id e = id) && inZone pos e) events)
    (exec (HorrorEvents_update delta pos rnd) s).
Proof.
  intros Hs. unfold HorrorEvents_update.
  apply exec_bind_inv; [by apply forEach_zones_flag|].
  intros _. unfold updHorror, _randomScare, setTimeout, audio, emit.
  inv_walk zone_tac.
Qed.

(** Ids in [events] are pairwise distinct: only the zone itself matches. *)
Lemma events_match (pos : Vector3) (event : ZoneEvent) :
  event ∈ events →
  existsb (λ e, bool_decide (ev_id e = ev_id event) && inZone pos e) events
  = inZone pos event.
Proof.
  intros Hev. unfold events in *.
  repeat (apply elem_of_cons in Hev as [->|Hev]);
    try (by apply elem_of_nil in Hev);
    cbn [existsb ev_id];
    repeat match goal with
           | |- context [bool_decide (?a = ?b)] =>
               let v := eval vm_compute in (bool_decide (a = b)) in
               change (bool_decide (a = b)) with v
           end;
    cbn [andb orb]; by rewrite ?orb_false_r.
Qed.

(** A session of updates, seen from one listed zone. *)
Section ZoneSession.

Variable event : ZoneEvent.
Hypothesis event_listed : event ∈ events.

Lemma update_zone (delta : Q) (pos : Vector3) (rnd : nat → Q) (s : State) :
  is_Some (horrorEvents s) →
  zoneIs (ev_id event) (zoneTriggered (ev_id event) s || inZone pos event)
    (exec (HorrorEvents_update delta pos rnd) s).
Proof.
  intros Hs. rewrite <- (events_match pos event event_listed).
  by apply update_flag.
Qed.

Lemma zoneFirings_length (ticks : list Tick) (s : State) :
  length (zoneFirings event s ticks) = length ticks.
Proof.
  revert s. induction ticks as [|[[d p] r] ticks IH]; intros s; simpl; [done|].
  by rewrite IH.
Qed.

Lemma zoneFirings_lookup (ticks : list Tick) (s : State) (k : nat) (t : Tick) :
  is_Some (horrorEvents s) →
  ticks !! k = Some t →
  zoneFirings event s ticks !! k
  = Some (negb (zoneTriggered (ev_id event) s)
          && negb (everInside event (take k ticks))
          && inZone t.1.2 event).
Proof.
  revert s k.
  induction ticks as [|[[d p] r] ticks IH]; intros s k Hs Hk; [done|].
  destruct k as [|k]; simpl in *.
  - injection Hk as <-. unfold zoneFires. by rewrite andb_true_r.
  - destruct (update_zone d p r s Hs) as [Hs1 Hz1].
    rewrite (IH _ k Hs1 Hk), Hz1. unfold everInside; simpl.
    by rewrite !negb_orb, andb_assoc.
Qed.

Lemma horrorSession_flag (ticks : list Tick) (s : State) :
  is_Some (horrorEvents s) →
  zoneTriggered (ev_id event) (horrorSession s ticks)
  = zoneTriggered (ev_id event) s || everInside event ticks.
Proof.
  revert s.
  induction ticks as [|[[d p] r] ticks IH]; intros s Hs; simpl.
  - by rewrite orb_false_r.
  - destruct (update_zone d p r s Hs) as [Hs1 Hz1].
    unfold horrorSession in *; simpl. rewrite (IH _ Hs1), Hz1.
    unfold everInside; simpl. by rewrite orb_assoc.
Qed.

(** A tick that fires has no tick inside before it. *)
Lemma zoneFirings_first (ticks : list Tick) (s : State) (a b : nat) :
  is_Some (horrorEvents s) → a < b →
  zoneFirings event s ticks !! a = Some true →
  zoneFirings event s ticks !! b = Some true → False.
Proof.
  intros Hs Hab Hfa Hfb.
  destruct (lookup_lt_is_Some_2 ticks a) as [ta Hta].
  { rewrite <- (zoneFirings_length ticks s). by eapply lookup_lt_Some. }
  destruct (lookup_lt_is_Some_2 ticks b) as [tb Htb].
  { rewrite <- (zoneFirings_length ticks s). by eapply lookup_lt_Some. }
  rewrite (zoneFirings_lookup ticks s a ta) in Hfa by done.
  rewrite (zoneFirings_lookup ticks s b tb) in Hfb by done.
  injection Hfa as Hfa. injection Hfb as Hfb.
  apply andb_prop in Hfa as [_ Hina].
  apply andb_prop in Hfb as [Hfb _]. apply andb_prop in Hfb as [_ Hnever].
  apply negb_true_iff in Hnever.
  assert (Hex : everInside event (take b ticks) = true); [|congruence].
  unfold everInside. apply existsb_exists. exists ta. split; [|done].
  apply list_elem_of_In, list_elem_of_lookup. exists a.
  by rewrite lookup_take_lt.
Qed.

(** At most one tick of a session fires the zone. *)
Lemma zoneFirings_once (ticks : list Tick) (s : State) (j k : nat) :
  is_Some (horrorEvents s) →
  zoneFirings event s ticks !! j = Some true →
  zoneFirings event s ticks !! k = Some true →
  j = k.
Proof.
  intros Hs Hj Hk.
  destruct (lt_eq_lt_dec j k) as [[Hjk|Hjk]|Hjk]; [|done|].
  - destruct (zoneFirings_first ticks s j k); done.
  - destruct (zoneFirings_first ticks s k j); done.
Qed.

End ZoneSession.

Ltac trig_tac :=
  cbv beta in *;
  match goal with
  | H : zoneTriggered _ ?s = true |- _ =>
      unfold zoneTriggered in *; simpl in *;
      first
        [ assumption
        | destruct (horrorEvents s); simpl in *; [|done];
          first
            [ assumption
            | apply bool_decide_eq_true; apply bool_decide_eq_true in H;
              by apply elem_of_union_r ] ]
  end.

Lemma triggered_runAction (id : string) (a : Action) :
  inv (λ s, zoneTriggered id s = true) (runAction a).
Proof. destruct a; unfold_actions; inv_walk trig_tac. Qed.

Lemma triggered_handler (id : string) (ev : Event) :
  inv (λ s, zoneTriggered id s = true) (handler ev).
Proof.
  destruct ev; unfold_handlers; try (inv_walk trig_tac; fail).
  apply inv_fireTimer; [done | apply triggered_runAction].
Qed.

Lemma rooftop_runAction (a : Action) :
  inv (λ s, rooftopTriggered s = true) (runAction a).
Proof. destruct a; unfold_actions; inv_walk ltac:(by simpl). Qed.

Lemma rooftop_handler (ev : Event) :
  inv (λ s, rooftopTriggered s = true) (handler ev).
Proof.
  destruct ev; unfold_handlers; try (inv_walk ltac:(by simpl); fail).
  apply inv_fireTimer; [done | apply rooftop_runAction].
Qed.

Lemma rooftopTrigger_spec (floorY : Q) (s : State) :
  rooftopTrigger floorY s
  = if rooftopFires floorY s then fireRooftop s else Ok tt s.
Proof.
  unfold rooftopTrigger, rooftopFires, fireRooftop.
  unfold mbind at 1. unfold M_bind at 1. unfold gets at 1.
  destruct (rooftopData s) as [tz|] eqn:E; [|done].
  destruct (Qeq_bool floorY 4 && negb (triggered tz)); simpl; [|done].
  unfold mbind at 1. unfold M_bind at 1. unfold gets at 1.
  destruct (containsPoint (triggerZoneBox tz) (camera s)); [|done].
  unfold mbind, M_bind, modify. by rewrite E.
Qed.

Lemma rooftop_fired (floorY : Q) (s : State) :
  rooftopFires floorY s = true →
  rooftopTriggered (exec (rooftopTrigger floorY) s) = true.
Proof.
  intros Hf. unfold exec. rewrite rooftopTrigger_spec, Hf.
  unfold rooftopFires in Hf. destruct (rooftopData s) as [tz|] eqn:E; [|done].
  unfold fireRooftop, triggerChapter2Cinematic, setTimeout, showHint, audio, emit,
    mbind, M_bind, modify, rooftopTriggered; simpl. by rewrite E.
Qed.

Lemma rooftop_spent (floorY : Q) (s : State) :
  rooftopTriggered s = true → rooftopFires floorY s = false.
Proof.
  unfold rooftopTriggered, rooftopFires.
  destruct (rooftopData s) as [tz|]; [|done].
  intros ->. simpl. by rewrite andb_false_r.
Qed.

(** C6. For a zone of [HorrorEvents.events]: a turn of the loop calls its
    handler exactly when the zone is untriggered and the player inside,
    and marks it first; over a session of updates the flag is "was set or
    the player was ever inside", the handler is called on the first tick
    inside of an untriggered zone and on no other, so on at most one; and
    the flag, once set, stays set through any events.  For the rooftop
    zone: the check starts the cinematic exactly when the floor is the
    roof, the zone untriggered and the camera inside its box, and sets
    the flag; once the flag is set it stays set through any events and
    the check does nothing, wherever the player stands. *)
Theorem C6_fires_once (s : State) (event : ZoneEvent) (ticks : list Tick)
    (evs : list Event) :
  is_Some (horrorEvents s) → event ∈ events →
  (∀ pos, checkZone pos event s
          = if zoneFires event pos s then fireZone event s else Ok tt s)
  ∧ zoneTriggered (ev_id event) (horrorSession s ticks)
    = zoneTriggered (ev_id event) s || everInside event ticks
  ∧ (∀ k t, ticks !! k = Some t →
       zoneFirings event s ticks !! k
       = Some (negb (zoneTriggered (ev_id event) s)
               && negb (everInside event (take k ticks))
               && inZone t.1.2 event))
  ∧ (∀ j k, zoneFirings event s ticks !! j = Some true →
            zoneFirings event s ticks !! k = Some true → j = k)
  ∧ (zoneTriggered (ev_id event) s = true →
       zoneTriggered (ev_id event) (run s evs) = true
       ∧ ∀ pos, zoneFires event pos (run s evs) = false)
  ∧ (∀ floorY, rooftopTrigger floorY s
               = if rooftopFires floorY s then fireRooftop s else Ok tt s)
  ∧ (∀ floorY, rooftopFires floorY s = true →
               rooftopTriggered (exec (rooftopTrigger floorY) s) = true)
  ∧ (rooftopTriggered s = true →
       rooftopTriggered (run s evs) = true
       ∧ ∀ floorY, rooftopTrigger floorY (run s evs) = Ok tt (run s evs)).
Proof.
  intros Hs Hev.
  split; [intros pos; by apply checkZone_spec|].
  split; [by apply horrorSession_flag|].
  split; [intros k t Hk; by apply zoneFirings_lookup|].
  split; [intros j k; by apply zoneFirings_once|].
  split.
  { intros Ht.
    assert (Ht' : zoneTriggered (ev_id event) (run s evs) = true).
    { apply (inv_run (λ s, zoneTriggered (ev_id event) s = true));
        [apply triggered_handler | done]. }
    split; [done|]. intros pos. unfold zoneFires. by rewrite Ht'. }
  split; [intros floorY; apply rooftopTrigger_spec|].
  split; [intros floorY; apply rooftop_fired|].
  intros Ht.
  assert (Ht' : rooftopTriggered (run s evs) = true).
  { apply (inv_run (λ s, rooftopTriggered s = true)); [apply rooftop_handler | done]. }
  split; [done|]. intros floorY.
  by rewrite rooftopTrigger_spec, rooftop_spent.
Qed.

Lemma C6_witness :
  is_Some (horrorEvents started)
  ∧ lobbyEnter ∈ events
  ∧ zoneTriggered (ev_id lobbyEnter) (horrorSession started lobbyWalk) = true
  ∧ zoneFirings lobbyEnter started lobbyWalk = [false; true; false; false; false].
Proof.
  assert (H1 : is_Some (horrorEvents started)) by (by eexists).
  assert (H2 : lobbyEnter ∈ events) by (by left).
  destruct (C6_fires_once started lobbyEnter lobbyWalk [] H1 H2) as (_ & Hflag & _).
  split; [exact H1|]. split; [exact H2|].
  split; [rewrite Hflag; vm_compute; reflexivity|].
  vm_compute; reflexivity.
Defined.

(* ===================================================================== *)
(** ** The chapter-ending cinematic                                        *)
(* ===================================================================== *)

(** Callbacks only ever add to the pending list, less than they weigh,
    and never another hatch unlock. *)
Lemma runAction_timers (a : Action) (s : State) :
  ∃ new, timers (exec (runAction a) s) = timers s ++ new
         ∧ pendingWork new + 1 ≤ weight a
         ∧ Forall (λ t, t.2 ≠ CinematicStep6) new.
Proof.
  destruct a; unfold_actions;
    unfold exec, getObj, makeEmptyAt, mbind, M_bind, mret, M_ret, gets, modify;
    simpl;
    repeat match goal with
           | |- context [match ?x with _ => _ end] =>
               lazymatch x with
               | context [match _ with _ => _ end] => fail
               | _ => destruct x eqn:?; simpl
               end
           end;
    first
      [ exists []; rewrite app_nil_r; split; [done|]; split; [simpl; lia | constructor]
      | eexists [_]; split; [done|]; split;
        [ repeat match goal with
                 | H : bool_decide _ = false |- _ => apply bool_decide_eq_false in H
                 end;
          simpl; lia
        | by repeat constructor ] ].
Qed.

Lemma pendingWork_app (l1 l2 : list (Z * Action)) :
  pendingWork (l1 ++ l2) = pendingWork l1 + pendingWork l2.
Proof. induction l1 as [|t l1 IH]; simpl; [done|]. rewrite IH. lia. Qed.

Lemma pendingWork_delete (l : list (Z * Action)) (k : nat) (d : Z) (a : Action) :
  l !! k = Some (d, a) → pendingWork (delete k l) + weight a = pendingWork l.
Proof.
  revert k. induction l as [|t l IH]; intros k Hk; [done|].
  destruct k as [|k]; simpl in *.
  - injection Hk as ->. simpl. lia.
  - specialize (IH k Hk). lia.
Qed.

Lemma weight_pos (a : Action) : 1 ≤ weight a.
Proof. destruct a; simpl; lia. Qed.

Lemma earliest_None (l : list (Z * Action)) : earliest l = None → l = [].
Proof.
  destruct l as [|[d a] l]; simpl; [done|].
  destruct (earliest l) as [[k [d' a']]|]; [|done].
  by destruct (d' <? d)%Z.
Qed.

Lemma earliest_min (l : list (Z * Action)) (k : nat) (d : Z) (a : Action) :
  earliest l = Some (k, (d, a)) → Forall (λ t, (d ≤ t.1)%Z) l.
Proof.
  revert k d a. induction l as [|[d0 a0] l IH]; intros k d a; simpl; [done|].
  destruct (earliest l) as [[k' [d' a']]|] eqn:E.
  - specialize (IH k' d' a' eq_refl).
    destruct (Z.ltb_spec d' d0); intros [= <- <- <-].
    + constructor; [simpl; lia | done].
    + constructor; [simpl; lia|].
      eapply Forall_impl; [exact IH|]. intros t Ht. simpl in *. lia.
  - intros [= <- <- <-]. apply earliest_None in E. subst.
    constructor; [simpl; lia | constructor].
Qed.

(** With fuel for every callback that can still come, [runUntil] ends. *)
Lemma runUntil_enough (fuel : nat) (t : Z) (s : State) :
  pendingWork (timers s) ≤ fuel → is_Some (runUntil fuel t s).
Proof.
  revert s. induction fuel as [|fuel IH]; intros s Hw; simpl.
  - destruct (earliest (timers s)) as [[k [due a]]|] eqn:Ee; [|by eexists].
    apply earliest_lookup in Ee.
    pose proof (pendingWork_delete _ _ _ _ Ee). pose proof (weight_pos a). lia.
  - destruct (earliest (timers s)) as [[k [due a]]|] eqn:Ee; [|by eexists].
    destruct (due <=? t)%Z; [|by eexists].
    apply IH. apply earliest_lookup in Ee.
    destruct (runAction_timers a
                (set_timers (delete k (timers s))
                   (set_nowMs (Z.max (nowMs s) due) s)))
      as (new & -> & Hnew & _).
    simpl. rewrite pendingWork_app.
    pose proof (pendingWork_delete _ _ _ _ Ee). lia.
Qed.

Lemma hatchUnlocked_runAction (h : nat) (a : Action) :
  inv (hatchUnlocked h) (runAction a).
Proof.
  assert (Hobj : ∀ a, a ≠ CinematicStep6 →
            inv (objSat h (λ o, interactable o = true)) (runAction a)).
  { intros a0 Ha0. destruct a0; try done; unfold_actions;
      inv_walk ltac:(first [ assumption
                           | apply objSat_alter; [|assumption]; by simpl ]). }
  intros s [Hh Ho].
  destruct (decide (a = CinematicStep6)) as [->|Hne].
  - unfold_actions. unfold mbind, M_bind, gets, modify; simpl. rewrite Hh; simpl.
    split; [done|].
    by apply (objSat_alter h h (set_interactable true) _ s).
  - assert (Hk : inv (λ s, hatchTrigger s = Some h) (runAction a)).
    { destruct a; unfold_actions; inv_walk ltac:(by simpl). }
    specialize (Hk s Hh). specialize (Hobj a Hne s Ho).
    by destruct (runAction a s).
Qed.

Lemma hatch_off_runAction (h : nat) (a : Action) :
  a ≠ CinematicStep6 →
  inv (λ s, hatchTrigger s = Some h ∧ objSat h (λ o, interactable o = false) s)
    (runAction a).
Proof.
  intros Ha. destruct a; try done; unfold_actions;
    inv_walk ltac:(idtac;
                   match goal with
                   | H : _ ∧ _ |- _ =>
                       destruct H as [? ?]; split; [by simpl|];
                       first [ assumption
                             | apply objSat_alter; [|assumption]; by simpl ]
                   end).
Qed.

Lemma hatchUnlocked_reports (h : nat) (s : State) :
  hatchUnlocked h s → hatchInteractable s = Some true.
Proof.
  intros (Hh & o & Ho & Hon). unfold hatchInteractable.
  rewrite Hh; simpl. by rewrite Ho; simpl; rewrite Hon.
Qed.

Lemma hatchLocked_reports (h : nat) (s : State) :
  hatchLocked h s → hatchInteractable s = Some false.
Proof.
  intros (Hh & (o & Ho & Hoff) & _). unfold hatchInteractable.
  rewrite Hh; simpl. by rewrite Ho; simpl; rewrite Hoff.
Qed.

(** The flag that [runUntil] leaves behind, from a state with the unlock
    pending or already done. *)
Lemma runUntil_hatch (fuel : nat) (t : Z) (h : nat) (s s' : State) :
  runUntil fuel t s = Some s' →
  (hatchLocked h s → hatchInteractable s' = Some (bool_decide (12000 ≤ t)%Z))
  ∧ (hatchUnlocked h s → hatchInteractable s' = Some true).
Proof.
  assert (Hstop : ∀ s0 x,
            (hatchLocked h s0 → hatchLocked h (set_nowMs x s0))
            ∧ (hatchUnlocked h s0 → hatchUnlocked h (set_nowMs x s0))).
  { intros s0 x. split; [intros (? & ? & ? & ?) | intros (? & ?)]; by repeat split. }
  assert (Hidle : ∀ s0, (∀ k due a, earliest (timers s0) = Some (k, (due, a)) →
                            (t < due)%Z) →
            (hatchLocked h s0 →
               hatchInteractable (set_nowMs (Z.max (nowMs s0) t) s0)
               = Some (bool_decide (12000 ≤ t)%Z))
            ∧ (hatchUnlocked h s0 →
               hatchInteractable (set_nowMs (Z.max (nowMs s0) t) s0) = Some true)).
  { intros s0 Hearly. split.
    - intros Hl. rewrite (hatchLocked_reports h) by (by apply Hstop).
      destruct Hl as (_ & _ & Hin & _).
      destruct (earliest (timers s0)) as [[k [due a]]|] eqn:Ee.
      + pose proof (earliest_min _ _ _ _ Ee) as Hmin.
        rewrite Forall_forall in Hmin. specialize (Hmin _ Hin). simpl in Hmin.
        specialize (Hearly k due a eq_refl).
        rewrite bool_decide_eq_false_2; [done | lia].
      + apply earliest_None in Ee. rewrite Ee in Hin. by apply elem_of_nil in Hin.
    - intros Hu. apply (hatchUnlocked_reports h). by apply Hstop. }
  revert s. induction fuel as [|fuel IH]; intros s; simpl.
  - destruct (earliest (timers s)) as [[k [due a]]|] eqn:Ee.
    + destruct (Z.leb_spec due t); [done|]. intros [= <-].
      apply Hidle. intros k' due' a' Hk'. rewrite Ee in Hk'.
      injection Hk' as <- <- <-. lia.
    + intros [= <-]. apply Hidle. intros k' due' a' Hk'. by rewrite Ee in Hk'.
  - destruct (earliest (timers s)) as [[k [due a]]|] eqn:Ee.
    + destruct (Z.leb_spec due t) as [Hdue|Hdue].
      * intros Hrun. destruct (IH _ Hrun) as [IHl IHu].
        set (s1 := set_timers (delete k (timers s))
                     (set_nowMs (Z.max (nowMs s) due) s)) in *.
        pose proof (earliest_lookup _ _ _ _ Ee) as Hk.
        split.
        -- intros (Hh & Ho & Hin & Hall).
           destruct (decide (a = CinematicStep6)) as [->|Hne].
           ++ (* the unlock itself: it is due at 12 s, so t has reached it *)
              assert (due = 12000%Z) as ->.
              { rewrite Forall_forall in Hall.
                apply (Hall (due, CinematicStep6)); [|done].
                apply list_elem_of_lookup. by exists k. }
              rewrite bool_decide_eq_true_2 by done.
              apply IHu. destruct Ho as (o & Ho & _).
              unfold_actions.
              unfold exec, mbind, M_bind, gets, modify, hatchUnlocked, objSat; simpl.
              rewrite Hh; simpl. split; [done|].
              exists (set_interactable true o).
              by rewrite list_lookup_alter_eq, Ho.
           ++ (* any other callback leaves the unlock pending *)
              apply IHl.
              destruct (runAction_timers a s1) as (new & Hnew & _ & Hno6).
              pose proof (inv_exec _ _ s1 (hatch_off_runAction h a Hne)
                            (conj Hh Ho)) as Hoff'.
              cbv beta in Hoff'. destruct Hoff' as [Hh' Ho'].
              split; [done|]. split; [done|]. rewrite Hnew. simpl.
              split.
              ** apply elem_of_app. left.
                 apply list_elem_of_lookup in Hin as [j Hj].
                 assert (j ≠ k) by (intros ->; congruence).
                 apply list_elem_of_lookup.
                 destruct (decide (j < k)).
                 --- exists j. by rewrite list_lookup_delete_lt.
                 --- exists (pred j). rewrite list_lookup_delete_ge by lia.
                     by replace (S (pred j)) with j by lia.
              ** apply Forall_app. split.
                 --- by apply Forall_delete.
                 --- eapply Forall_impl; [exact Hno6|]. by intros [d' a'] ? ?.
        -- intros Hu. apply IHu, (inv_exec (hatchUnlocked h));
             [apply hatchUnlocked_runAction|].
           destruct Hu as [Hh Ho]. by split.
      * intros [= <-]. apply Hidle. intros k' due' a' Hk'. rewrite Ee in Hk'.
      injection Hk' as <- <- <-. lia.
    + intros [= <-]. apply Hidle. intros k' due' a' Hk'. by rewrite Ee in Hk'.
Qed.

(** The run as [triggerChapter2Cinematic] schedules it from an idle
    session at t = 0. *)
Lemma cinematic_scheduled (s : State) :
  timers s = [] → nowMs s = 0%Z →
  timers (exec triggerChapter2Cinematic s)
  = [ (2000%Z, CinematicStep2); (4500%Z, CinematicStep3);
      (5500%Z, CinematicStep4); (7500%Z, CinematicStep5);
      (12000%Z, CinematicStep6); (14000%Z, CinematicStep7) ].
Proof.
  intros Ht Hnow.
  unfold triggerChapter2Cinematic, setTimeout, showHint, audio, emit,
    exec, mbind, M_bind, modify; simpl.
  by rewrite Ht, Hnow.
Qed.

Lemma cinematic_hatch_at (s : State) (h : nat) (hd : Interactable) (t : Z) :
  timers s = [] → nowMs s = 0%Z →
  hatchTrigger s = Some h → interactables s !! h = Some hd →
  interactable hd = false →
  ∃ s', cinematicAt s t = Some s'
        ∧ hatchInteractable s' = Some (bool_decide (12000 ≤ t)%Z).
Proof.
  intros Ht Hnow Hh Ho Hoff. unfold cinematicAt.
  pose proof (cinematic_scheduled s Ht Hnow) as Hsched.
  destruct (runUntil_enough 40 t (exec triggerChapter2Cinematic s)) as [s' Hs'].
  { rewrite Hsched. simpl. lia. }
  exists s'. split; [done|].
  apply (runUntil_hatch 40 t h _ s' Hs').
  split; [done|]. split; [by exists hd|]. rewrite Hsched. split.
  - do 4 right. by left.
  - repeat constructor; simpl; congruence.
Qed.

(** C7 (as the code has it). The chapter-ending run is started at t = 0
    with nothing else pending and the hatch switched off.  Its hatch step
    is the [setTimeout] of 12000 ms: left to run until any instant [t],
    the hatch reports [interactable:true] exactly when [t] has reached
    12 s.  So it reports [interactable:false] at 11.9 s, and
    [interactable:true] at 12.1 s and still at 13.9 s. *)
Theorem C7_hatch_unlock_time (s : State) (h : nat) (hd : Interactable) (t : Z) :
  timers s = [] → nowMs s = 0%Z →
  hatchTrigger s = Some h → interactables s !! h = Some hd →
  interactable hd = false →
  (hatchInteractable <$> cinematicAt s t) = Some (Some (bool_decide (12000 ≤ t)%Z))
  ∧ (hatchInteractable <$> cinematicAt s 11900) = Some (Some false)
  ∧ (hatchInteractable <$> cinematicAt s 12100) = Some (Some true)
  ∧ (hatchInteractable <$> cinematicAt s 13900) = Some (Some true).
Proof.
  intros Ht Hnow Hh Ho Hoff.
  assert (Hat : ∀ t', (hatchInteractable <$> cinematicAt s t')
                      = Some (Some (bool_decide (12000 ≤ t')%Z))).
  { intros t'. destruct (cinematic_hatch_at s h hd t') as (s' & Hrun & Hrep);
      [done..|].
    rewrite Hrun. simpl. by rewrite Hrep. }
  split; [apply Hat|]. by rewrite !Hat.
Qed.

Lemma C7_witness :
  (hatchInteractable <$> cinematicAt (init miniLevel) 11900) = Some (Some false)
  ∧ (hatchInteractable <$> cinematicAt (init miniLevel) 12100) = Some (Some true).
Proof.
  destruct (C7_hatch_unlock_time (init miniLevel) 4
              (mkObj T_hatch false EmptyString None None None) 0)
    as (_ & H1 & H2 & _); try reflexivity.
  by split.
Defined.

(** Against C7 as the specification words it: at 13.9 s the hatch,
    unlocked at 12 s, does not report [interactable:false]. *)
Lemma C7_counterexample :
  (hatchInteractable <$> cinematicAt (init miniLevel) 13900) ≠ Some (Some false).
Proof. vm_compute. discriminate. Qed.

(* ===================================================================== *)
(** ** The collectibles counter                                            *)
(* ===================================================================== *)

Lemma tryInteract_counts (s : State) (hit : option nat) :
  collectiblesFound (exec (tryInteract hit) s)
  = collectiblesFound s + (if counted s hit then 1 else 0).
Proof.
  unfold counted. run_handler.
  destruct (paused s), (noteOpen s); simpl; try lia.
  destruct hit as [i|]; simpl; [|lia].
  destruct (interactables s !! i) as [o|] eqn:Ho; simpl; [|lia].
  destruct (interactable o) eqn:Hact; simpl; [|lia].
  destruct (type_ o); simpl; rewrite ?Ho; simpl;
    repeat (match goal with
            | |- context [if ?b then _ else _] => destruct b eqn:?; simpl
            end;
            rewrite ?Ho; simpl;
            repeat match goal with
                   | H : ?x = _ |- context [?x] => rewrite H; simpl
                   end);
    lia.
Qed.

Lemma counter_runAction (c : nat) (a : Action) :
  inv (λ s, collectiblesFound s = c) (runAction a).
Proof. destruct a; unfold_actions; inv_walk ltac:(by simpl). Qed.

Lemma counter_other_events (c : nat) (ev : Event) :
  (∀ hit, ev ≠ KeyDown KeyE hit) →
  inv (λ s, collectiblesFound s = c) (handler ev).
Proof.
  intros Hev. destruct ev as [code hit| | | | | | | | |k|ms];
    try (unfold_handlers; inv_walk ltac:(by simpl); fail).
  - destruct code; try (by destruct (Hev hit));
      unfold handler, onKeyDown, toggleFlashlight, audio, emit;
      inv_walk ltac:(by simpl).
  - apply inv_fireTimer; [done | apply counter_runAction].
Qed.

(** C8 (as the code has it). Every event adds to [collectiblesFound]
    exactly what [countedEvent] says: one for an interact key press in a
    live game whose ray hits an object that is not switched off and whose
    branch does not return early, nothing otherwise.  The interacts that
    count include every one that does something (notes, doors, valves,
    keycards, the hatch) and also the refused ones on a locked security or
    escape door and the repeated ones on an open inner door or a turned
    valve. *)
Theorem C8_counter (s : State) (ev : Event) :
  collectiblesFound (step s ev) = collectiblesFound s + countedEvent s ev.
Proof.
  assert (Hframe : (∀ hit, ev ≠ KeyDown KeyE hit) →
                   collectiblesFound (step s ev) = collectiblesFound s).
  { intros Hev. unfold step.
    apply (inv_exec (λ s', collectiblesFound s' = collectiblesFound s));
      [by apply counter_other_events | done]. }
  destruct ev as [[] hit| | | | | | | | | |]; simpl countedEvent;
    try (rewrite Hframe by done; lia).
  unfold step, handler, onKeyDown.
  unfold exec, mbind, M_bind, gets at 1. simpl.
  destruct (playing s); simpl; [|lia].
  apply tryInteract_counts.
Qed.

(** Against C8 as the specification words it ("and on no other
    occasion"): a further interact on a turned valve does nothing to the
    game and still counts, and so does the interact that the locked
    security door refuses. *)
Lemma C8_counterexample :
  let s := interactAll started [6] in
  let r := exec (tryInteract (Some 1)) started in
  (isTurned s 6 = true
   ∧ exec (tryInteract (Some 6)) s = set_collectiblesFound (S (collectiblesFound s)) s
   ∧ collectiblesFound (exec (tryInteract (Some 6)) s) ≠ collectiblesFound s)
  ∧ (hasKeycard started = false
     ∧ interactables r = interactables started
     ∧ collectiblesFound r ≠ collectiblesFound started).
Proof.
  intros s r. split.
  - split; [reflexivity|]. split; [reflexivity|]. vm_compute. lia.
  - split; [reflexivity|]. split; [reflexivity|]. vm_compute. lia.
Qed.

(* ===================================================================== *)
(** ** Chapter one never leaves                                            *)
(* ===================================================================== *)

Lemma dormant_gates (h0 : HorrorEvents) (s : State) :
  dormant h0 s → horrorGate s = false ∧ entityGate s = false.
Proof.
  intros (Hc & He & _). unfold horrorGate, entityGate. rewrite Hc, He.
  split; [apply andb_false_r | done].
Qed.

Ltac dormant_tac :=
  idtac;
  match goal with
  | H : dormant _ _ |- _ =>
      destruct H as (? & ? & ? & ? & ?);
      repeat split; simpl; try assumption;
      first [ by apply Forall_cons
            | apply Forall_app; split; [assumption|];
              by apply Forall_cons ]
  end.

(** As [inv_walk], stepping over the two guarded calls of the loop. *)
Ltac inv_walk_gated tac :=
  repeat first
    [ apply inv_ret
    | apply (inv_gets_val _ horrorGate false);
      [ intros ? ?; eapply dormant_gates; eassumption | cbv beta iota ]
    | apply (inv_gets_val _ entityGate false);
      [ intros ? ?; eapply dormant_gates; eassumption | cbv beta iota ]
    | apply inv_gets
    | apply inv_throw
    | apply inv_getObj
    | apply inv_bind; [|intros ?]
    | apply inv_makeEmptyAt; intros ? ? ? ?; tac
    | apply inv_modify; intros ? ?; tac
    | match goal with
      | |- inv _ (if ?b then _ else _) => destruct b
      | |- inv _ (match ?x with _ => _ end) => destruct x
      end ].

Ltac unfold_main :=
  unfold handler, onKeyDown, onKeyUp, startGame, resumeGame, quitToMenu,
    onLock, onUnlock, toggleFlashlight, tryInteract, closeNote, animate,
    movement, levelAndBounds, rooftopTrigger, batteryDrain,
    dispatch, openDoor, openSecurityDoor, openNote,
    triggerChapter2Cinematic, updObj, animateFor,
    setTimeout, showHint, audio, _playTone, emit.

Lemma dormant_runAction (h0 : HorrorEvents) (a : Action) :
  inv (dormant h0) (runAction a).
Proof. destruct a; unfold_actions; inv_walk_gated dormant_tac. Qed.

Lemma dormant_handler (h0 : HorrorEvents) (ev : Event) :
  inv (dormant h0) (handler ev).
Proof.
  destruct ev; unfold_main; try (inv_walk_gated dormant_tac; fail).
  (* a pending callback: never one of the horror system's *)
  intros s Hs. unfold fireTimer.
  destruct (timers s !! k) as [[due a]|] eqn:Ek; [|done].
  destruct (due <=? nowMs s)%Z; [|done].
  assert (Hd : dormant h0 (set_timers (delete k (timers s)) s)).
  { destruct Hs as (? & ? & ? & ? & Ht). repeat split; simpl; try assumption.
    by apply Forall_delete. }
  by apply (dormant_runAction h0 a).
Qed.

(** C9. In every state a session can reach: [chapter] is 1 and there is
    no entity, so both guards of the loop's "chapter 2+" calls are false
    and neither [HorrorEvents.update] nor the entity's [update] runs; the
    horror object is as its constructor left it (no zone triggered, the
    scare timer at zero), no whisper or screen flash was ever issued, and
    no distant-footstep callback is pending. *)
Theorem C9_chapter_one_forever (lv : Level) (evs : list Event) :
  let s := run (init lv) evs in
  chapter s = 1
  ∧ entitySystem s = None
  ∧ horrorGate s = false
  ∧ entityGate s = false
  ∧ horrorEvents s = horrorEvents (init lv)
  ∧ (∀ id, zoneTriggered id s = false)
  ∧ Forall (λ e, horrorOnly e = false) (log s)
  ∧ Forall (λ t, t.2 ≠ DistantFootstep) (timers s).
Proof.
  cbv zeta.
  destruct (horrorEvents (init lv)) as [h0|] eqn:Eh; [|done].
  assert (Hd : dormant h0 (run (init lv) evs)).
  { apply inv_run; [apply dormant_handler|]. by repeat split. }
  destruct (dormant_gates _ _ Hd) as [Hg1 Hg2].
  destruct Hd as (Hc & He & Hh & Hl & Ht).
  split; [done|]. split; [done|]. split; [done|]. split; [done|].
  split; [done|]. split; [|by split].
  intros id. unfold zoneTriggered. rewrite Hh.
  injection Eh as <-. simpl. by apply bool_decide_eq_false.
Qed.

(* ===================================================================== *)
(** ** The maintenance hatch                                               *)
(* ===================================================================== *)

(** C10 (as the code has it). An interact on the hatch teleports the
    player to (-13, -2.3, -26) exactly when the game is live, the hatch is
    switched on and the final terminal was read.  Live and switched on but
    without the terminal read (as after a sequence started from the
    rooftop), it is refused with the "sealed" hint and nothing else
    changes.  While the hatch is switched off, or the game is paused or
    showing a note, the interact changes nothing and shows no hint. *)
Theorem C10_hatch (s : State) (i : nat) (o : Interactable) :
  interactables s !! i = Some o → type_ o = T_hatch →
  let s' := exec (tryInteract (Some i)) s in
  throws (tryInteract (Some i)) s = false
  ∧ (if negb (paused s || noteOpen s) && interactable o
     then if finalTerminalRead s
          then s' = descended s ∧ camera s' = V3 (-13) (-2.3) (-26)
          else s' = sealedHint s ∧ camera s' = camera s
     else s' = s)
  ∧ (camera s' ≠ camera s →
     paused s = false ∧ noteOpen s = false
     ∧ interactable o = true ∧ finalTerminalRead s = true).
Proof.
  intros Ho Hty s'. unfold s', throws, descended, sealedHint. run_handler.
  destruct (paused s), (noteOpen s); simpl; try (by repeat split).
  rewrite Ho; simpl.
  destruct (interactable o); simpl; [|by repeat split].
  rewrite Hty; simpl.
  destruct (finalTerminalRead s); simpl; by repeat split.
Qed.

Lemma C10_witness :
  ∃ s, afterRoofCinematic = Some s
       ∧ hatchInteractable s = Some true
       ∧ finalTerminalRead s = false
       ∧ exec (tryInteract (Some 4)) s = sealedHint s.
Proof.
  eexists. split; [vm_compute; reflexivity|].
  split; [reflexivity|]. split; [reflexivity|].
  match goal with
  | |- exec _ ?st = _ =>
      destruct (C10_hatch st 4 (set_interactable true (mkObj T_hatch false EmptyString None None None)))
        as (_ & H & _); [reflexivity | reflexivity | apply H]
  end.
Defined.

(** Against C10 as the specification words it ("in every other case ...
    rejected with a 'sealed' hint"): while the hatch is switched off the
    interact is dropped before the hatch branch and no hint is shown. *)
Lemma C10_counterexample :
  hatchInteractable started = Some false
  ∧ exec (tryInteract (Some 4)) started = started
  ∧ log (exec (tryInteract (Some 4)) started)
    ≠ Hint "The hatch is sealed shut" :: log started.
Proof.
  split; [reflexivity|]. split; [reflexivity|]. vm_compute. discriminate.
Qed.
